(** * CertCreate: the content filter and the certificate ledger

    A shallow embedding of [profanity_filter.py] and [data_store.py].

    Text is a [string] whose characters are the code points below 256
    (Latin-1); dictionaries are [gmap]s; the JSON file, the clock and the
    I/O faults of the ledger are explicit arguments of its operations. *)

From Stdlib Require Import ZArith Ascii String Floats.SpecFloat.
From stdpp Require Import base option list gmap strings fin_maps.

Local Open Scope string_scope.
#[local] Arguments String.append !_ _ / : simpl nomatch.

(** ** profanity_filter.py *)

Module Filter.

(** [BLOCKED_WORDS], in the order in which the source's set literal lists
    them. Python iterates a set of strings in an order that depends on the
    hash seed, so the functions below take the iteration order as an
    argument, and the theorems hold for every permutation of this list. *)
Definition BLOCKED_WORDS : list string :=
  [ "ass"; "arse"; "asshole"; "bastard"; "bitch"; "bloody"; "bollocks";
    "bugger"; "bullshit"; "crap"; "damn"; "dick"; "dickhead";
    "fag"; "faggot"; "fuck"; "fucking"; "fucker"; "goddam"; "goddamn";
    "hell"; "homo"; "jerk"; "moron"; "nigger"; "nigga"; "piss"; "prick";
    "pussy"; "retard"; "shit"; "shitty"; "slut"; "twat"; "wanker"; "whore";
    "nazi"; "hitler"; "kkk"; "racist";
    "anal"; "boob"; "boobs"; "breast"; "cock"; "cum"; "dildo"; "penis";
    "porn"; "sex"; "sexy"; "vagina"; "xxx";
    "cocaine"; "heroin"; "meth"; "crack";
    "kill"; "murder"; "rape"; "terrorist" ].

(** [LEET_SPEAK_MAP], in insertion order (the order of [.items()]). *)
Definition LEET_SPEAK_MAP : list (ascii * ascii) :=
  [ ("0", "o"); ("1", "i"); ("3", "e"); ("4", "a"); ("5", "s"); ("7", "t");
    ("8", "b"); ("@", "a"); ("$", "s"); ("!", "i"); ("+", "t") ]%char.

(** Code point of a character. *)
Definition ord (c : ascii) : N := N_of_ascii c.

(** [c.isupper()] for a code point below 256: A-Z, and the Latin-1 capitals
    U+00C0..U+00DE except the multiplication sign U+00D7. *)
Definition is_upper (c : ascii) : bool :=
  ((65 <=? ord c) && (ord c <=? 90))%N
  || ((192 <=? ord c) && (ord c <=? 222) && negb (ord c =? 215))%N.

(** [c.lower()]: every capital below 256 has its small letter 32 above. *)
Definition lower_char (c : ascii) : ascii :=
  if is_upper c then ascii_of_N (ord c + 32) else c.

(** [c.isspace()] for a code point below 256. *)
Definition is_space (c : ascii) : bool :=
  ((9 <=? ord c) && (ord c <=? 13))%N
  || ((28 <=? ord c) && (ord c <=? 32))%N
  || (ord c =? 133)%N || (ord c =? 160)%N.

(** The character class [a-z]. *)
Definition is_az (c : ascii) : bool :=
  ((97 <=? ord c) && (ord c <=? 122))%N.

Fixpoint str_map (f : ascii -> ascii) (s : string) : string :=
  match s with
  | EmptyString => EmptyString
  | String c r => String (f c) (str_map f r)
  end.

Fixpoint str_filter (p : ascii -> bool) (s : string) : string :=
  match s with
  | EmptyString => EmptyString
  | String c r => if p c then String c (str_filter p r) else str_filter p r
  end.

(** [s.lower()] *)
Definition str_lower (s : string) : string := str_map lower_char s.

(** [s.replace(old, new)] for one-character [old] and [new]. *)
Definition str_replace (old new : ascii) (s : string) : string :=
  str_map (fun c => if Ascii.eqb c old then new else c) s.

(** The loop [for leet_char, normal_char in LEET_SPEAK_MAP.items()]. *)
Definition replace_leet (s : string) : string :=
  fold_left (fun normalized kv => str_replace (fst kv) (snd kv) normalized)
            LEET_SPEAK_MAP s.

(** [re.sub(r'[^a-z]', '', s)] *)
Definition re_sub_non_az (s : string) : string := str_filter is_az s.

(** [normalize_text]; the argument is [None] for Python's [None]. *)
Definition normalize_text (text : option string) : string :=
  match text with
  | None => ""
  | Some "" => ""
  | Some s => re_sub_non_az (replace_leet (str_lower s))
  end.

(** [w in s] on strings. *)
Fixpoint str_in (w s : string) : bool :=
  String.prefix w s ||
  match s with
  | EmptyString => false
  | String _ r => str_in w r
  end.

(** [s.split()]: the maximal runs of non-whitespace characters. [cur] is the
    run being read. *)
Fixpoint split_from (cur s : string) : list string :=
  match s with
  | EmptyString => match cur with EmptyString => [] | _ => [cur] end
  | String c r =>
      if is_space c
      then match cur with
           | EmptyString => split_from "" r
           | _ => cur :: split_from "" r
           end
      else split_from (cur +:+ String c "") r
  end.

Definition str_split (s : string) : list string := split_from "" s.

(** [w in BLOCKED_WORDS], membership in the set. *)
Definition is_blocked (w : string) : bool :=
  existsb (String.eqb w) BLOCKED_WORDS.

(** [contains_profanity]; [order] is the iteration order of
    [BLOCKED_WORDS]. *)
Definition contains_profanity (order : list string) (text : option string)
  : bool * option string :=
  match text with
  | None => (false, None)
  | Some "" => (false, None)
  | Some s =>
      let normalized := normalize_text text in
      match find (fun word => str_in word normalized) order with
      | Some word => (true, Some word)
      | None =>
          let words := str_split (str_lower s) in
          match find is_blocked
                     (map (fun original_word => normalize_text (Some original_word))
                          words) with
          | Some normalized_word => (true, Some normalized_word)
          | None => (false, None)
          end
      end
  end.

(** [check_all_fields]: [fields] holds the keyword arguments in call order. *)
Fixpoint check_all_fields (order : list string)
    (fields : list (string * option string))
  : bool * option string * option string :=
  match fields with
  | [] => (true, None, None)
  | (field_name, text) :: rest =>
      match contains_profanity order text with
      | (true, matched) => (false, Some field_name, matched)
      | (false, _) => check_all_fields order rest
      end
  end.

End Filter.

(** ** data_store.py *)

Module Ledger.

Local Open Scope Z_scope.

(** A JSON scalar held in a certificate record: [null] or a string. *)
Inductive value := VNone | VStr (s : string).

(** Python truthiness of such a value. *)
Definition truthy (v : value) : bool :=
  match v with
  | VNone => false
  | VStr s => negb (String.eqb s "")
  end.

(** A certificate record is a JSON object, a dictionary from field names to
    values. *)
Abbreviation cert := (gmap string value).

(** [data['stats']] *)
Record stats_dict := Stats {
  total_school_certificates : Z;
  total_student_certificates : Z
}.

(** The document [_load_data] returns and [_save_data] writes. *)
Record data := Data {
  school_certificates : gmap string cert;
  student_certificates : gmap string cert;
  stats : stats_dict
}.

(** What [certificates.json] holds when it exists: text that [json.load]
    rejects with [JSONDecodeError], or a document of the shape that
    [_save_data] writes. The storage is [None] when the file does not
    exist. The data directory is taken to exist already. *)
Inductive file := Garbage | Json (d : data).

Abbreviation storage := (option file).

(** How a call to [_save_data] ends: the file is written; [open] raises and
    the file is untouched; or [json.dump] raises after [open] has truncated
    the file. *)
Inductive write_outcome := WriteOk | OpenFails | DumpFails.

(** The I/O conditions one call of an operation meets: whether opening and
    reading the file works (else [IOError]), and how the write ends. *)
Record env := Env { readable : bool; write : write_outcome }.

Inductive exn := IOError.

Inductive result (A : Type) := Ok (a : A) | Raise (e : exn).
Arguments Ok {A} a.
Arguments Raise {A} e.

(** The default structure of [_load_data]. *)
Definition default_data : data :=
  Data ∅ ∅ (Stats 0 0).

(** [_load_data]: both [json.JSONDecodeError] and [IOError] are caught and
    fall through to the default structure. *)
Definition _load_data (e : env) (st : storage) : data :=
  match st with
  | None => default_data
  | Some f =>
      if readable e
      then match f with
           | Json d => d
           | Garbage => default_data
           end
      else default_data
  end.

(** [_save_data]: nothing is caught. *)
Definition _save_data (e : env) (d : data) (st : storage)
  : result unit * storage :=
  match write e with
  | WriteOk => (Ok tt, Some (Json d))
  | OpenFails => (Raise IOError, st)
  | DumpFails => (Raise IOError, Some Garbage)
  end.

(** [len(d)] *)
Definition len {A} (m : gmap string A) : Z := Z.of_nat (size m).

(** [record_school_certificate]; [now] is [datetime.now().isoformat()]. *)
Definition record_school_certificate (e : env) (now : string)
    (cert_id : string) (school_name region : value) (st : storage)
  : result unit * storage :=
  let data := _load_data e st in
  let school :=
    <[cert_id := {[ "school_name" := school_name;
                    "region" := region;
                    "date" := VStr now ]}]> (school_certificates data) in
  let data :=
    Data school (student_certificates data)
         (Stats (len school) (total_student_certificates (stats data))) in
  _save_data e data st.

(** [record_student_certificate] *)
Definition record_student_certificate (e : env) (now : string)
    (cert_id : string) (school_name : value) (st : storage)
  : result unit * storage :=
  let data := _load_data e st in
  let student :=
    <[cert_id := {[ "school_name" := school_name;
                    "date" := VStr now ]}]> (student_certificates data) in
  let data :=
    Data (school_certificates data) student
         (Stats (total_school_certificates (stats data)) (len student)) in
  _save_data e data st.

(** *** Floats

    Python floats are IEEE binary64 numbers, here [spec_float] with the
    precision and exponent range of binary64. *)

Definition prec : Z := 53.
Definition emax : Z := 1024.

(** [float(n)] *)
Definition float_of_int (n : Z) : spec_float :=
  binary_normalize prec emax n 0 false.

(** [a / b] on ints: the quotient rounded once, to nearest even. The source
    divides only under [total > 0]; [b = 0], where Python raises
    [ZeroDivisionError], is given [nan] here. *)
Definition int_truediv (a b : Z) : spec_float :=
  let s := xorb (a <? 0) (b <? 0) in
  if b =? 0 then S754_nan
  else if a =? 0 then S754_zero s
  else
    let '(q, e, l) := SFdiv_core_binary prec emax (Z.abs a) 0 (Z.abs b) 0 in
    binary_round_aux prec emax s q e l.

(** [x * y] *)
Definition float_mul (x y : spec_float) : spec_float := SFmul prec emax x y.

(** The integer nearest to [10 * m * 2^e], ties to even: the digits that
    [round(x, 1)] keeps of [x = m * 2^e]. *)
Definition tenths (m : positive) (e : Z) : Z :=
  let n := 10 * Z.pos m in
  if 0 <=? e then n * 2 ^ e
  else
    let d := 2 ^ (- e) in
    let q := n / d in
    match (2 * (n mod d) ?= d) with
    | Lt => q
    | Eq => if Z.even q then q else q + 1
    | Gt => q + 1
    end.

(** [round(x, 1)]: the decimal with one digit after the point nearest to the
    exact value of [x] (ties to even), converted back to the nearest
    float. *)
Definition round1 (x : spec_float) : spec_float :=
  match x with
  | S754_finite s m e =>
      let t := tenths m e in
      if t =? 0 then S754_zero s
      else
        let '(q, e', l) := SFdiv_core_binary prec emax t 0 10 0 in
        binary_round_aux prec emax s q e' l
  | _ => x
  end.

(** [round((count / total) * 100, 1)] *)
Definition percentage (total count : Z) : spec_float :=
  round1 (float_mul (int_truediv count total) (float_of_int 100)).

(** A JSON number: the percentages are ints on one branch of [get_stats]
    and floats on the other. *)
Inductive number := Int (n : Z) | Float (x : spec_float).

(** *** Statistics *)

(** What [get_stats] returns: the copied [stats] entries and the four
    computed ones. *)
Record statistics := Statistics {
  totals : stats_dict;
  countries : gmap string Z;
  country_percentages : gmap string spec_float;
  regions : gmap string Z;
  region_percentages : gmap string number
}.

(** One round of the first loop of [get_stats]. *)
Definition count_country (cert_id : string) (cert_data : cert)
    (country_counts : gmap string Z) : gmap string Z :=
  let country := default (VStr "Unknown") (cert_data !! "region") in
  match country with
  | VStr c =>
      if truthy country
      then <[c := default 0 (country_counts !! c) + 1]> country_counts
      else country_counts
  | VNone => country_counts
  end.

(** The initial [region_counts]. *)
Definition region_counts0 : gmap string Z :=
  {[ "England" := 0; "Wales" := 0; "Northern Ireland" := 0; "Scotland" := 0 ]}.

(** One round of the second loop of [get_stats]. *)
Definition count_region (cert_id : string) (cert_data : cert)
    (region_counts : gmap string Z) : gmap string Z :=
  match cert_data !! "region" with
  | Some (VStr r) =>
      match region_counts !! r with
      | Some n => <[r := n + 1]> region_counts
      | None => region_counts
      end
  | _ => region_counts
  end.

(** [get_stats] *)
Definition get_stats (e : env) (st : storage) : statistics :=
  let data := _load_data e st in
  let stats := stats data in
  let country_counts := map_fold count_country ∅ (school_certificates data) in
  let total := total_school_certificates stats in
  let country_percentages :=
    if 0 <? total then percentage total <$> country_counts else ∅ in
  let region_counts :=
    map_fold count_region region_counts0 (school_certificates data) in
  let region_percentages :=
    if 0 <? total
    then (fun count => Float (percentage total count)) <$> region_counts
    else (fun _ => Int 0) <$> region_counts in
  Statistics stats country_counts country_percentages
             region_counts region_percentages.

(** [get_all_data] *)
Definition get_all_data (e : env) (st : storage) : data := _load_data e st.

(** [get_certificate_info]; in the dict display the entries of the record
    come after ['type'] and so win over it. *)
Definition get_certificate_info (e : env) (cert_id : string) (st : storage)
  : option cert :=
  let data := _load_data e st in
  match school_certificates data !! cert_id with
  | Some c => Some (c ∪ {[ "type" := VStr "school" ]})
  | None =>
      match student_certificates data !! cert_id with
      | Some c => Some (c ∪ {[ "type" := VStr "student" ]})
      | None => None
      end
  end.

(** *** Sequences of calls *)

(** A recording call with its arguments. *)
Inductive call :=
  | RecordSchool (cert_id : string) (school_name region : value)
  | RecordStudent (cert_id : string) (school_name : value).

(** A call made under I/O conditions [e] at time [now]. *)
Definition step (st : storage) (c : env * string * call)
  : result unit * storage :=
  let '(e, now, op) := c in
  match op with
  | RecordSchool cert_id school_name region =>
      record_school_certificate e now cert_id school_name region st
  | RecordStudent cert_id school_name =>
      record_student_certificate e now cert_id school_name st
  end.

(** The storage after a sequence of calls; a call that raises leaves the
    storage as [_save_data] left it, and the caller goes on. *)
Definition run (calls : list (env * string * call)) (st : storage) : storage :=
  fold_left (fun st c => snd (step st c)) calls st.

End Ledger.

(** ** app.py: the two routes that use the filter and the ledger *)

Module App.
Import Filter Ledger.

(** [get_polite_rejection_message] of [profanity_filter.py]. *)
Definition get_polite_rejection_message : string :=
  "We're unable to create a certificate with the information provided. "
  +:+ "Please ensure all names are appropriate and professional. "
  +:+ "If you believe this is an error, please check your entries and try again.".

(** [s.lstrip()], [s.rstrip()] and [s.strip()]. *)
Fixpoint str_lstrip (s : string) : string :=
  match s with
  | EmptyString => EmptyString
  | String c r => if is_space c then str_lstrip r else s
  end.

Fixpoint str_rstrip (s : string) : string :=
  match s with
  | EmptyString => EmptyString
  | String c r =>
      match str_rstrip r with
      | EmptyString => if is_space c then EmptyString else String c EmptyString
      | r' => String c r'
      end
  end.

Definition str_strip (s : string) : string := str_rstrip (str_lstrip s).

(** How the PDF part of a request ends: [get_certificates_dir] and the
    generator return, [pdf_path] being what [os.path.join] gave; or one of
    them raises an exception whose text is [msg]. *)
Inductive pdf_outcome := PdfOk (pdf_path : string) | PdfFails (msg : string).

(** What a request finds outside the program: the first eight characters of
    a fresh uuid in upper case, the two readings of the clock, the outcome
    of the PDF part, the I/O conditions of the ledger and the text of the
    error the ledger raises when its write fails. *)
Record world := World {
  cert_id : string;
  completion_date : string;
  now : string;
  pdf : pdf_outcome;
  io : env;
  io_error_text : string
}.

(** What a route leaves behind: the endpoint it redirects to, the messages
    it flashed with their category, the session and the ledger file. *)
Record outcome := Outcome {
  redirect : string;
  flashed : list (string * string);
  session_after : gmap string string;
  storage_after : storage
}.

(** [register]; [form] is [request.form]. *)
Definition register (order : list string) (w : world)
    (form session : gmap string string) (st : storage) : outcome :=
  let teacher_name := str_strip (default "" (form !! "teacher_name")) in
  let school_name := str_strip (default "" (form !! "school_name")) in
  let region := str_strip (default "" (form !! "region")) in
  if String.eqb teacher_name "" || String.eqb school_name ""
     || String.eqb region ""
  then Outcome "index" [("Please fill in all required fields.", "error")]
               session st
  else
    match check_all_fields order [("teacher_name", Some teacher_name);
                                  ("school_name", Some school_name)] with
    | (false, _, _) =>
        Outcome "index" [(get_polite_rejection_message, "error")] session st
    | (true, _, _) =>
        let session :=
          <["school_cert_id" := cert_id w]>
            (<["completion_date" := completion_date w]>
               (<["region" := region]>
                  (<["school_name" := school_name]>
                     (<["teacher_name" := teacher_name]> session)))) in
        let pdf_filename := "school_certificate_" +:+ cert_id w +:+ ".pdf" in
        match pdf w with
        | PdfFails msg =>
            Outcome "index" [("Error generating certificate: " +:+ msg, "error")]
                    session st
        | PdfOk pdf_path =>
            let session :=
              <["school_pdf_filename" := pdf_filename]>
                (<["school_pdf_path" := pdf_path]> session) in
            match record_school_certificate (io w) (now w) (cert_id w)
                    (VStr school_name) (VStr region) st with
            | (Ok _, st') => Outcome "school_certificate" [] session st'
            | (Raise _, st') =>
                Outcome "index"
                        [("Error generating certificate: " +:+ io_error_text w,
                          "error")]
                        session st'
            end
        end
    end.

(** [generate_student_cert] *)
Definition generate_student_cert (order : list string) (w : world)
    (form session : gmap string string) (st : storage) : outcome :=
  match session !! "school_name" with
  | None =>
      Outcome "index" [("Please complete the school registration first.", "error")]
              session st
  | Some school_name =>
      let student_name := str_strip (default "" (form !! "student_name")) in
      if String.eqb student_name ""
      then Outcome "student_certificates"
                   [("Please enter the student's first name.", "error")]
                   session st
      else
        match check_all_fields order [("student_name", Some student_name)] with
        | (false, _, _) =>
            Outcome "student_certificates"
                    [(get_polite_rejection_message, "error")] session st
        | (true, _, _) =>
            let pdf_filename :=
              "student_certificate_" +:+ str_replace " " "_" student_name
              +:+ "_" +:+ cert_id w +:+ ".pdf" in
            match pdf w with
            | PdfFails msg =>
                Outcome "student_certificates"
                        [("Error generating certificate: " +:+ msg, "error")]
                        session st
            | PdfOk pdf_path =>
                let session :=
                  <["last_student_name" := student_name]>
                    (<["last_student_pdf_filename" := pdf_filename]>
                       (<["last_student_pdf_path" := pdf_path]> session)) in
                match record_student_certificate (io w) (now w) (cert_id w)
                        (VStr school_name) st with
                | (Ok _, st') => Outcome "student_certificate_ready" [] session st'
                | (Raise _, st') =>
                    Outcome "student_certificates"
                            [("Error generating certificate: "
                              +:+ io_error_text w, "error")]
                            session st'
                end
            end
        end
  end.

(** A request to one of the two routes, with the form it posts and the
    session it carries. *)
Inductive request :=
  | PostRegister (form session : gmap string string)
  | PostStudent (form session : gmap string string).

Definition serve (order : list string) (st : storage) (r : world * request)
  : outcome :=
  match r.2 with
  | PostRegister form session => register order r.1 form session st
  | PostStudent form session => generate_student_cert order r.1 form session st
  end.

(** The ledger file after a sequence of requests. *)
Definition serve_all (order : list string) (requests : list (world * request))
    (st : storage) : storage :=
  fold_left (fun st r => storage_after (serve order st r)) requests st.

End App.

(** ** pdf_generator.py: the colour conversion *)

Module Pdf.
Import Filter Ledger App.
Local Open Scope Z_scope.

(** [s.lstrip('#')] *)
Fixpoint lstrip_hash (s : string) : string :=
  match s with
  | EmptyString => EmptyString
  | String c r => if Ascii.eqb c "#" then lstrip_hash r else s
  end.

(** The value of a character as a digit in base 16. *)
Definition hex_digit (c : ascii) : option Z :=
  let n := Z.of_N (ord c) in
  if (48 <=? n) && (n <=? 57) then Some (n - 48)
  else if (97 <=? n) && (n <=? 102) then Some (n - 87)
  else if (65 <=? n) && (n <=? 70) then Some (n - 55)
  else None.

(** The whitespace [int] skips around a number: the ASCII whitespace and,
    below 256, the two other Unicode spaces; unlike [str.isspace] it leaves
    out the separators U+001C to U+001F. *)
Definition is_int_space (c : ascii) : bool :=
  let n := Z.of_N (ord c) in
  ((9 <=? n) && (n <=? 13)) || (n =? 32) || (n =? 133) || (n =? 160).

Fixpoint skip_int_space (s : string) : string :=
  match s with
  | EmptyString => EmptyString
  | String c r => if is_int_space c then skip_int_space r else s
  end.

(** The digit loop of [int(s, 16)]: digits, with single underscores allowed
    between them. It returns the value and what follows the digits;
    [prev_underscore] says that the last character read was an
    underscore. *)
Fixpoint digits16 (prev_underscore : bool) (acc : Z) (s : string)
  : option (Z * string) :=
  match s with
  | EmptyString => if prev_underscore then None else Some (acc, EmptyString)
  | String c r =>
      match hex_digit c with
      | Some d => digits16 false (16 * acc + d) r
      | None =>
          if prev_underscore then None
          else if Ascii.eqb c "_" then digits16 true acc r
          else Some (acc, s)
      end
  end.

(** [int(s, 16)]; [None] is [ValueError]. Whitespace around the number is
    skipped, a sign and the prefix [0x] are accepted, and at least one
    digit is required. *)
Definition int16 (s : string) : option Z :=
  let s := skip_int_space s in
  let '(negative, s) :=
    match s with
    | String "+" r => (false, r)
    | String "-" r => (true, r)
    | _ => (false, s)
    end in
  let s :=
    match s with
    | String "0" (String x r) =>
        if Ascii.eqb x "x" || Ascii.eqb x "X"
        then match r with String "_" r' => r' | _ => r end
        else s
    | _ => s
    end in
  match s with
  | EmptyString => None
  | String c _ =>
      match hex_digit c with
      | None => None
      | Some _ =>
          match digits16 false 0 s with
          | Some (v, rest) =>
              match skip_int_space rest with
              | EmptyString => Some (if negative then - v else v)
              | _ => None
              end
          | None => None
          end
      end
  end.

(** [n / 255.0] for an int [n]. *)
Definition over_255 (n : Z) : spec_float :=
  SFdiv prec emax (float_of_int n) (float_of_int 255).

(** [hex_to_rgb]; [None] is the [ValueError] of [int]. *)
Definition hex_to_rgb (hex_color : string)
  : option (spec_float * spec_float * spec_float) :=
  let hex_color := lstrip_hash hex_color in
  match int16 (substring 0 2 hex_color) with
  | None => None
  | Some r =>
      match int16 (substring 2 2 hex_color) with
      | None => None
      | Some g =>
          match int16 (substring 4 2 hex_color) with
          | None => None
          | Some b => Some (over_255 r, over_255 g, over_255 b)
          end
      end
  end.

End Pdf.

(** * Vocabulary of the statements *)

Module FilterSpec.
Import Filter.

(** Joining words without a separator. *)
Definition str_concat (l : list string) : string :=
  foldr String.append "" l.

(** What [normalize_text] does to a single character before the class
    [a-z] is applied: lower it, then walk the leet table. *)
Definition leet_char (c : ascii) : ascii :=
  fold_left (fun c kv => if Ascii.eqb c (fst kv) then snd kv else c)
            LEET_SPEAK_MAP c.

Definition norm_char (c : ascii) : ascii := leet_char (lower_char c).

(** [normalize_text] on a string that is present. *)
Definition pipeline (s : string) : string :=
  re_sub_non_az (replace_leet (str_lower s)).

(** The ASCII letters. *)
Definition is_letter (c : ascii) : bool :=
  is_az c || ((65 <=? ord c) && (ord c <=? 90))%N.

Fixpoint str_forall (p : ascii -> bool) (s : string) : bool :=
  match s with
  | EmptyString => true
  | String c r => p c && str_forall p r
  end.

(** The whole-text check alone: some blocked term is a substring of the
    normalized text. *)
Definition substring_check (text : option string) : bool :=
  existsb (fun word => str_in word (normalize_text text)) BLOCKED_WORDS.

(** The entry of [LEET_SPEAK_MAP] for a character, if it has one. *)
Definition leet_lookup (c : ascii) : option ascii :=
  snd <$> find (fun kv => Ascii.eqb c (fst kv)) LEET_SPEAK_MAP.

(** A field passes the filter. *)
Definition clean (order : list string) (f : string * option string) : bool :=
  negb (fst (contains_profanity order f.2)).

End FilterSpec.

Module LedgerSpec.
Import Ledger.
Local Open Scope Z_scope.

(** The in-memory update of [record_school_certificate]. *)
Definition school_record (now : string) (school_name region : value) : cert :=
  {[ "school_name" := school_name; "region" := region; "date" := VStr now ]}.

Definition add_school (now cert_id : string) (school_name region : value)
    (d : data) : data :=
  let school := <[cert_id := school_record now school_name region]>
                  (school_certificates d) in
  Data school (student_certificates d)
       (Stats (len school) (total_student_certificates (stats d))).

(** The in-memory update of [record_student_certificate]. *)
Definition student_record (now : string) (school_name : value) : cert :=
  {[ "school_name" := school_name; "date" := VStr now ]}.

Definition add_student (now cert_id : string) (school_name : value)
    (d : data) : data :=
  let student := <[cert_id := student_record now school_name]>
                   (student_certificates d) in
  Data (school_certificates d) student
       (Stats (total_school_certificates (stats d)) (len student)).

(** The update a call makes to the loaded document. *)
Definition apply_call (now : string) (op : call) (d : data) : data :=
  match op with
  | RecordSchool cert_id school_name region =>
      add_school now cert_id school_name region d
  | RecordStudent cert_id school_name =>
      add_student now cert_id school_name d
  end.

(** A property of documents, read on a storage: it holds of the document
    the file parses to, if any. *)
Definition holds (P : data -> Prop) (st : storage) : Prop :=
  match st with
  | Some (Json d) => P d
  | _ => True
  end.

(** The stored totals agree with the sizes of the two mappings. *)
Definition totals_agree (d : data) : Prop :=
  total_school_certificates (stats d) = len (school_certificates d) /\
  total_student_certificates (stats d) = len (student_certificates d).

(** Every record holds exactly the fields its operation writes. *)
Definition school_fields : gset string := {[ "school_name"; "region"; "date" ]}.
Definition student_fields : gset string := {[ "school_name"; "date" ]}.

Definition only_school_level_data (d : data) : Prop :=
  map_Forall (fun _ (c : cert) => dom c = school_fields) (school_certificates d) /\
  map_Forall (fun _ (c : cert) => dom c = student_fields) (student_certificates d).

(** The key under which the first loop of [get_stats] counts a record, if it
    counts it at all. *)
Definition country_key (c : cert) : option string :=
  match c !! "region" with
  | None => Some "Unknown"
  | Some (VStr s) => if String.eqb s "" then None else Some s
  | Some VNone => None
  end.

(** The number of records of [m] that [key] files under [k]. *)
Definition occurrences (key : cert -> option string) (k : string)
    (m : gmap string cert) : Z :=
  len (filter (fun ic => key ic.2 = Some k) m).

(** A count as a dictionary entry: keys are present only with a count of at
    least one. *)
Definition entry (n : Z) : option Z := if n =? 0 then None else Some n.

(** The region key the specification files a School record under: its
    region string, and the sentinel when the region is absent, null or
    empty. *)
Definition spec_region_key (c : cert) : string :=
  match c !! "region" with
  | Some (VStr s) => if String.eqb s "" then "Unknown" else s
  | _ => "Unknown"
  end.

(** [countByRegion] as the specification words it: every School record is
    counted, under its region or under the sentinel. *)
Definition spec_countByRegion (m : gmap string cert) : gmap string Z :=
  map_fold (fun _ c counts =>
              <[spec_region_key c := default 0 (counts !! spec_region_key c) + 1]>
                counts)
           ∅ m.

(** A ledger file holding one School certificate. *)
Definition one_school_ledger : storage :=
  Some (Json (add_school "2024-05-01T10:00:00" "ABC123"
                         (VStr "Oak School") (VStr "Wales") default_data)).


(** The digits [round(x, 1)] keeps of the percentage of [count] in
    [total], as a number of tenths. *)
Definition percentage_tenths (total count : Z) : Z :=
  match float_mul (int_truediv count total) (float_of_int 100) with
  | S754_finite s m e => if s then - tenths m e else tenths m e
  | _ => 0
  end.

(** [t] tenths is a decimal nearest to the exact [100 * count / total]. *)
Definition nearest_tenth (total count t : Z) : bool :=
  2 * Z.abs (t * total - 1000 * count) <=? total.

(** A call made while both reading and writing the file work. *)
Definition good_io (c : env * string * call) : Prop :=
  c.1.1 = Env true WriteOk.

(** The document obtained by applying the updates of the calls, in order, to
    the default structure. *)
Definition replay (calls : list (env * string * call)) (d : data) : data :=
  fold_left (fun d c => apply_call c.1.2 c.2 d) calls d.

(** The record written by the last School call for [cert_id], if any. *)
Fixpoint last_school (cert_id : string) (calls : list (env * string * call))
  : option cert :=
  match calls with
  | [] => None
  | c :: rest =>
      match last_school cert_id rest with
      | Some r => Some r
      | None =>
          match c.2 with
          | RecordSchool id school_name region =>
              if decide (id = cert_id)
              then Some (school_record c.1.2 school_name region)
              else None
          | RecordStudent _ _ => None
          end
      end
  end.

(** The record written by the last Student call for [cert_id], if any. *)
Fixpoint last_student (cert_id : string) (calls : list (env * string * call))
  : option cert :=
  match calls with
  | [] => None
  | c :: rest =>
      match last_student cert_id rest with
      | Some r => Some r
      | None =>
          match c.2 with
          | RecordStudent id school_name =>
              if decide (id = cert_id)
              then Some (student_record c.1.2 school_name)
              else None
          | RecordSchool _ _ _ => None
          end
      end
  end.

(** The ids the School calls, and the Student calls, were made with. *)
Definition school_ids (calls : list (env * string * call)) : list string :=
  omap (fun c => match c.2 with
                 | RecordSchool id _ _ => Some id
                 | RecordStudent _ _ => None
                 end) calls.

Definition student_ids (calls : list (env * string * call)) : list string :=
  omap (fun c => match c.2 with
                 | RecordStudent id _ => Some id
                 | RecordSchool _ _ _ => None
                 end) calls.

(** The region of a record when it is a string. *)
Definition region_key (c : cert) : option string :=
  match c !! "region" with
  | Some (VStr s) => Some s
  | _ => None
  end.

(** The four regions of [region_counts]. *)
Definition fixed_regions : gset string :=
  {[ "England"; "Wales"; "Northern Ireland"; "Scotland" ]}.

(** The sum of the counts of a dictionary. *)
Definition sum_counts (m : gmap string Z) : Z :=
  map_fold (fun _ n acc => n + acc) 0 m.

(** The School records that the first loop of [get_stats] counts. *)
Definition counted (m : gmap string cert) : gmap string cert :=
  filter (fun ic => is_Some (country_key ic.2)) m.

(** The id a call records under. *)
Definition call_id (op : call) : string :=
  match op with
  | RecordSchool cert_id _ _ => cert_id
  | RecordStudent cert_id _ => cert_id
  end.

End LedgerSpec.

Module AppSpec.
Import Filter Ledger App FilterSpec LedgerSpec.

(** A form field as the routes read it: missing fields are empty, and the
    surrounding whitespace is dropped. *)
Definition field (form : gmap string string) (name : string) : string :=
  str_strip (default "" (form !! name)).

(** Every School record of the document is counted by [get_stats]. *)
Definition every_school_counted (d : data) : Prop :=
  map_Forall (fun _ (c : cert) => is_Some (country_key c)) (school_certificates d).

(** What the routes keep true of the ledger. *)
Definition app_ledger (d : data) : Prop :=
  totals_agree d /\ every_school_counted d.

(** The recording calls the routes make: names and regions are strings, and
    the region of a School call is not empty. *)
Definition app_call (op : call) : Prop :=
  match op with
  | RecordSchool _ (VStr _) (VStr region) => region <> ""
  | RecordStudent _ (VStr _) => True
  | _ => False
  end.

End AppSpec.

Module PdfSpec.
Import Filter Ledger Pdf.
Local Open Scope Z_scope.

(** The hex digit of value [d], in upper or lower case. *)
Definition hex_char (upper : bool) (d : Z) : ascii :=
  if d <? 10 then ascii_of_N (Z.to_N (48 + d))
  else if upper then ascii_of_N (Z.to_N (55 + d))
  else ascii_of_N (Z.to_N (87 + d)).

(** A byte written as two hex digits, each in its own case. *)
Definition hex_byte (upper_hi upper_lo : bool) (n : Z) : string :=
  String (hex_char upper_hi (n / 16))
         (String (hex_char upper_lo (n mod 16)) EmptyString).

(** [n] hash signs. *)
Fixpoint hashes (n : nat) : string :=
  match n with
  | O => EmptyString
  | S k => String "#" (hashes k)
  end.

(** The floats 0.0 and 1.0. *)
Definition float_zero : spec_float := S754_zero false.
Definition float_one : spec_float := S754_finite false 4503599627370496 (-52).

(** The 256 characters. *)
Definition all_chars : list ascii :=
  map (fun n => ascii_of_N (N.of_nat n)) (seq 0 256).

End PdfSpec.

(** * Properties of the content filter *)

Module FilterFacts.
Import Filter FilterSpec.

(** Case analysis over the 256 characters. *)
Ltac each_char c :=
  destruct c as [[] [] [] [] [] [] [] []]; vm_compute; try reflexivity;
  try discriminate; auto.

Lemma az_norm_char c : is_az c = true -> norm_char c = c.
Proof. each_char c. Qed.

Lemma space_not_az c : is_space c = true -> is_az (norm_char c) = false.
Proof. each_char c. Qed.

Lemma norm_char_lower c : norm_char (lower_char c) = norm_char c.
Proof. each_char c. Qed.

Lemma letter_norm_char c :
  is_letter c = true -> norm_char c = lower_char c /\ is_az (lower_char c) = true.
Proof. each_char c. Qed.

Lemma str_map_app f a b : str_map f (a +:+ b) = str_map f a +:+ str_map f b.
Proof. induction a as [|c a IH]; simpl; [reflexivity | by rewrite IH]. Qed.

Lemma str_filter_app p a b :
  str_filter p (a +:+ b) = str_filter p a +:+ str_filter p b.
Proof.
  induction a as [|c a IH]; simpl; [reflexivity |].
  destruct (p c); simpl; by rewrite IH.
Qed.

Lemma str_map_map f g s : str_map g (str_map f s) = str_map (fun c => g (f c)) s.
Proof. induction s as [|c s IH]; simpl; [reflexivity | by rewrite IH]. Qed.

Lemma str_app_assoc (a b c : string) : (a +:+ b) +:+ c = a +:+ (b +:+ c).
Proof. induction a as [|x a IH]; simpl; [reflexivity | by rewrite IH]. Qed.

Lemma str_app_empty_r (a : string) : a +:+ "" = a.
Proof. induction a as [|x a IH]; simpl; [reflexivity | by rewrite IH]. Qed.

(** The replacement loop is one pass with [leet_char]: the targets of the
    table are letters, and no letter is a key. *)
Lemma replace_leet_map s : replace_leet s = str_map leet_char s.
Proof.
  unfold replace_leet, leet_char.
  generalize LEET_SPEAK_MAP as l. intros l. revert s.
  induction l as [|kv l IH]; intros s; simpl.
  - induction s as [|c s IHs]; simpl; [reflexivity | by rewrite <- IHs].
  - rewrite IH. unfold str_replace. by rewrite str_map_map.
Qed.

Lemma pipeline_char_wise s :
  pipeline s = str_filter is_az (str_map norm_char s).
Proof.
  unfold pipeline, re_sub_non_az, str_lower. rewrite replace_leet_map.
  by rewrite str_map_map.
Qed.

Lemma normalize_text_Some s : normalize_text (Some s) = pipeline s.
Proof. destruct s; reflexivity. Qed.

Lemma pipeline_app a b : pipeline (a +:+ b) = pipeline a +:+ pipeline b.
Proof. by rewrite !pipeline_char_wise, str_map_app, str_filter_app. Qed.

Lemma pipeline_cons c s :
  pipeline (String c s) =
  if is_az (norm_char c) then String (norm_char c) (pipeline s) else pipeline s.
Proof. rewrite !pipeline_char_wise. reflexivity. Qed.

Lemma pipeline_lower s : pipeline (str_lower s) = pipeline s.
Proof.
  rewrite !pipeline_char_wise. unfold str_lower. rewrite str_map_map.
  induction s as [|c s IH]; cbn [str_map str_filter]; [reflexivity |].
  by rewrite norm_char_lower, IH.
Qed.

Lemma pipeline_az s : str_forall is_az s = true -> pipeline s = s.
Proof.
  induction s as [|c s IH]; [reflexivity |]. simpl.
  intros [Hc Hs]%andb_prop. rewrite pipeline_cons.
  by rewrite (az_norm_char c Hc), Hc, (IH Hs).
Qed.

Lemma pipeline_is_az s : str_forall is_az (pipeline s) = true.
Proof.
  induction s as [|c s IH]; [reflexivity |]. rewrite pipeline_cons.
  destruct (is_az (norm_char c)) eqn:E; [simpl; by rewrite E | exact IH].
Qed.

Lemma pipeline_idempotent s : pipeline (pipeline s) = pipeline s.
Proof. apply pipeline_az, pipeline_is_az. Qed.

Lemma pipeline_letters s :
  str_forall is_letter s = true -> pipeline s = str_lower s.
Proof.
  induction s as [|c s IH]; [reflexivity |]. simpl.
  intros [Hc Hs]%andb_prop. rewrite pipeline_cons.
  destruct (letter_norm_char c Hc) as [-> ->].
  unfold str_lower in *. simpl. by rewrite (IH Hs).
Qed.

(** Substring test. *)

Lemma prefix_empty s : String.prefix "" s = true.
Proof. by destruct s. Qed.

Lemma prefix_app_l w s b :
  String.prefix w s = true -> String.prefix w (s +:+ b) = true.
Proof.
  revert s. induction w as [|x w IH]; intros s; [intros _; apply prefix_empty |].
  destruct s as [|y s]; simpl; [discriminate |].
  destruct (ascii_dec x y); [apply IH | discriminate].
Qed.

Lemma prefix_refl w : String.prefix w w = true.
Proof.
  induction w as [|x w IH]; [reflexivity |]. simpl.
  by destruct (ascii_dec x x).
Qed.

Lemma str_in_unfold w s :
  str_in w s =
  String.prefix w s || match s with "" => false | String _ r => str_in w r end.
Proof. by destruct s. Qed.

Lemma str_in_app_l w s b : str_in w s = true -> str_in w (s +:+ b) = true.
Proof.
  induction s as [|c s IH]; rewrite str_in_unfold.
  - rewrite orb_false_r. intros H.
    destruct w; [| discriminate]. by rewrite str_in_unfold, prefix_empty.
  - intros [H|H]%orb_prop; rewrite (str_in_unfold w (String c s +:+ b)).
    + by rewrite (prefix_app_l _ _ b H).
    + simpl. rewrite (IH H). apply orb_true_r.
Qed.

Lemma str_in_app_r w a s : str_in w s = true -> str_in w (a +:+ s) = true.
Proof.
  intros H. induction a as [|c a IH]; [exact H |].
  rewrite str_in_unfold. simpl. rewrite IH. apply orb_true_r.
Qed.

Lemma str_in_refl w : str_in w w = true.
Proof. rewrite str_in_unfold, prefix_refl. reflexivity. Qed.

Lemma str_in_middle w a b : str_in w (a +:+ w +:+ b) = true.
Proof. apply str_in_app_r, str_in_app_l, str_in_refl. Qed.

Lemma str_in_empty w : str_in w "" = true -> w = "".
Proof. destruct w; [reflexivity | discriminate]. Qed.

Lemma str_in_concat w (l : list string) :
  In w l -> str_in w (str_concat l) = true.
Proof.
  induction l as [|x l IH]; [intros [] |]. simpl.
  intros [->|H].
  - apply str_in_app_l, str_in_refl.
  - apply str_in_app_r, IH, H.
Qed.

(** The words of a text, normalized one by one and joined, are the
    normalization of the whole text: the separators are all removed by
    [normalize_text] anyway. *)
Lemma split_from_pipeline cur s :
  str_concat (map pipeline (split_from cur s)) = pipeline cur +:+ pipeline s.
Proof.
  revert cur. induction s as [|c s IH]; intros cur.
  - simpl. destruct cur; simpl; by rewrite ?str_app_empty_r.
  - simpl split_from. destruct (is_space c) eqn:Hsp.
    + rewrite (pipeline_cons c s), (space_not_az c Hsp).
      destruct cur as [|x cur].
      * apply IH.
      * simpl. by rewrite IH.
    + rewrite IH, pipeline_app, str_app_assoc.
      f_equal. change (String c s) with (String c "" +:+ s).
      by rewrite pipeline_app.
Qed.

Lemma str_split_pipeline s :
  str_concat (map pipeline (str_split s)) = pipeline s.
Proof. unfold str_split. by rewrite split_from_pipeline. Qed.

Lemma map_normalize_words (l : list string) :
  map (fun original_word => normalize_text (Some original_word)) l
  = map pipeline l.
Proof. apply map_ext. intros w. apply normalize_text_Some. Qed.

(** Membership in the set does not depend on the iteration order. *)

Lemma is_blocked_In w : is_blocked w = true <-> In w BLOCKED_WORDS.
Proof.
  unfold is_blocked. rewrite existsb_exists. split.
  - intros (x & Hx & ->%String.eqb_eq). exact Hx.
  - intros H. exists w. split; [exact H | apply String.eqb_refl].
Qed.

Lemma perm_In (order : list string) w :
  order ≡ₚ BLOCKED_WORDS -> In w order <-> In w BLOCKED_WORDS.
Proof.
  intros H. split; apply Permutation_in; [exact H | by symmetry].
Qed.

Lemma existsb_perm (p : string -> bool) (order : list string) :
  order ≡ₚ BLOCKED_WORDS -> existsb p order = existsb p BLOCKED_WORDS.
Proof.
  intros H. apply eq_true_iff_eq. rewrite !existsb_exists.
  split; intros (x & Hx & Hp); exists x; split; auto; by apply (perm_In order x H).
Qed.

Lemma find_existsb {A} (p : A -> bool) (l : list A) :
  existsb p l = match find p l with Some _ => true | None => false end.
Proof.
  induction l as [|x l IH]; [reflexivity |]. simpl.
  destruct (p x); [reflexivity | exact IH].
Qed.

(** When exactly one word of the set satisfies [p], every iteration order
    finds that word. *)
Lemma find_unique (p : string -> bool) (order : list string) w :
  order ≡ₚ BLOCKED_WORDS ->
  forallb (fun x => implb (p x) (String.eqb x w)) BLOCKED_WORDS = true ->
  existsb (fun x => p x && String.eqb x w) BLOCKED_WORDS = true ->
  find p order = Some w.
Proof.
  intros Hperm Hall Hex.
  rewrite forallb_forall in Hall. rewrite existsb_exists in Hex.
  destruct Hex as (x & Hx & [Hpx ->%String.eqb_eq]%andb_prop).
  destruct (find p order) as [y|] eqn:Hf.
  - apply find_some in Hf as [Hy Hpy].
    apply (perm_In order y Hperm), Hall in Hy.
    rewrite Hpy in Hy. simpl in Hy. by apply String.eqb_eq in Hy as ->.
  - apply (perm_In order w Hperm) in Hx.
    by rewrite (find_none _ _ Hf w Hx) in Hpx.
Qed.

Lemma find_absent (p : string -> bool) (order : list string) :
  order ≡ₚ BLOCKED_WORDS ->
  existsb p BLOCKED_WORDS = false ->
  find p order = None.
Proof.
  intros Hperm Hex. rewrite <- (existsb_perm p order Hperm) in Hex.
  rewrite find_existsb in Hex. by destruct (find p order).
Qed.

Lemma blocked_nonempty : existsb (fun word => str_in word "") BLOCKED_WORDS = false.
Proof. reflexivity. Qed.

Lemma blocked_normal :
  forallb (fun word => String.eqb (pipeline word) word) BLOCKED_WORDS = true.
Proof. vm_compute. reflexivity. Qed.

Lemma has_profanity_substring order text :
  order ≡ₚ BLOCKED_WORDS ->
  fst (contains_profanity order text) = substring_check text.
Proof.
  intros Hperm. unfold substring_check.
  destruct text as [s|]; [| symmetry; apply blocked_nonempty].
  destruct s as [|c r]; [symmetry; apply blocked_nonempty |].
  unfold contains_profanity.
  set (s := String c r). set (normalized := normalize_text (Some s)).
  rewrite <- (existsb_perm _ order Hperm), find_existsb.
  destruct (find _ order) as [w|] eqn:Hfind; [reflexivity |].
  rewrite map_normalize_words.
  destruct (find is_blocked _) as [nw|] eqn:Hword; [| reflexivity].
  exfalso. apply find_some in Hword as [Hin Hbl].
  apply is_blocked_In, (perm_In order nw Hperm) in Hbl.
  pose proof (find_none _ _ Hfind nw Hbl) as Hno. simpl in Hno.
  apply str_in_concat in Hin.
  rewrite str_split_pipeline, pipeline_lower in Hin.
  unfold normalized in Hno. rewrite normalize_text_Some in Hno.
  congruence.
Qed.

End FilterFacts.

(** * Properties of the ledger *)

Module LedgerFacts.
Import Ledger LedgerSpec.
Local Open Scope Z_scope.

Lemma record_school_certificate_eq e now cert_id school_name region st :
  record_school_certificate e now cert_id school_name region st
  = _save_data e (add_school now cert_id school_name region (_load_data e st)) st.
Proof. reflexivity. Qed.

Lemma record_student_certificate_eq e now cert_id school_name st :
  record_student_certificate e now cert_id school_name st
  = _save_data e (add_student now cert_id school_name (_load_data e st)) st.
Proof. reflexivity. Qed.

Lemma step_eq st e now op :
  step st (e, now, op) = _save_data e (apply_call now op (_load_data e st)) st.
Proof. by destruct op. Qed.

Lemma load_unreadable w st : _load_data (Env false w) st = default_data.
Proof. by destruct st. Qed.

Lemma load_garbage e : _load_data e (Some Garbage) = default_data.
Proof. by destruct e as [[] ?]. Qed.

Lemma load_absent e : _load_data e None = default_data.
Proof. reflexivity. Qed.

Lemma load_cases e st :
  _load_data e st = default_data \/
  exists d, st = Some (Json d) /\ _load_data e st = d.
Proof.
  destruct st as [[|d]|]; [left; apply load_garbage | | by left].
  destruct e as [[] w]; [right; by exists d | by left].
Qed.

(** A property of documents that holds of the default structure and is kept
    by both updates holds of whatever is loaded after any sequence of
    calls, whatever the I/O conditions of each call were. *)
Section Invariant.
Variable P : data -> Prop.
Hypothesis P_default : P default_data.
Hypothesis P_apply : forall now op d, P d -> P (apply_call now op d).

Lemma holds_load e st : holds P st -> P (_load_data e st).
Proof.
  intros H. destruct (load_cases e st) as [->|(d & -> & ->)]; [done | exact H].
Qed.

Lemma holds_step st c : holds P st -> holds P (snd (step st c)).
Proof.
  intros H. destruct c as [[e now] op]. rewrite step_eq.
  unfold _save_data. destruct (write e); simpl; [| exact H | exact I].
  apply P_apply, holds_load, H.
Qed.

Lemma holds_run calls st : holds P st -> holds P (run calls st).
Proof.
  revert st. induction calls as [|c calls IH]; intros st H; [exact H |].
  apply IH, holds_step, H.
Qed.

Lemma invariant_run calls e : P (_load_data e (run calls None)).
Proof. apply holds_load, holds_run. exact I. Qed.

End Invariant.

Lemma totals_agree_default : totals_agree default_data.
Proof. split; reflexivity. Qed.

Lemma totals_agree_apply now op d :
  totals_agree d -> totals_agree (apply_call now op d).
Proof. intros [Hs Ht]. destruct op; split; simpl; auto. Qed.

Lemma dom_school_record now school_name region :
  dom (school_record now school_name region) = school_fields.
Proof.
  unfold school_record, school_fields.
  rewrite !dom_insert_L, dom_singleton_L. set_solver.
Qed.

Lemma dom_student_record now school_name :
  dom (student_record now school_name) = student_fields.
Proof.
  unfold student_record, student_fields.
  rewrite !dom_insert_L, dom_singleton_L. set_solver.
Qed.

Lemma only_school_level_data_default : only_school_level_data default_data.
Proof. split; apply map_Forall_empty. Qed.

Lemma only_school_level_data_apply now op d :
  only_school_level_data d -> only_school_level_data (apply_call now op d).
Proof.
  intros [Hs Ht]. destruct op; split; simpl; auto.
  - apply map_Forall_insert_2; [apply dom_school_record | exact Hs].
  - apply map_Forall_insert_2; [apply dom_student_record | exact Ht].
Qed.

(** *** Counting by region *)

Lemma count_country_key cert_id c acc :
  count_country cert_id c acc =
  match country_key c with
  | Some k => <[k := default 0 (acc !! k) + 1]> acc
  | None => acc
  end.
Proof.
  unfold count_country, country_key.
  destruct (c !! "region") as [[|s]|]; simpl; try reflexivity.
  by destruct (String.eqb s "").
Qed.

Lemma occurrences_empty key k : occurrences key k ∅ = 0.
Proof. unfold occurrences, len. by rewrite map_filter_empty, map_size_empty. Qed.

Lemma occurrences_nonneg key k m : 0 <= occurrences key k m.
Proof. unfold occurrences, len. lia. Qed.

Lemma occurrences_insert key k (m : gmap string cert) i x :
  m !! i = None ->
  occurrences key k (<[i:=x]> m) =
  occurrences key k m + (if decide (key x = Some k) then 1 else 0).
Proof.
  intros Hi. unfold occurrences, len. case_decide as Hk.
  - rewrite map_filter_insert_True by exact Hk.
    rewrite map_size_insert_None; [lia |].
    apply map_lookup_filter_None. by left.
  - rewrite map_filter_insert_not'; [lia | exact Hk |].
    intros y Hy. by rewrite Hi in Hy.
Qed.

Lemma entry_succ n : 0 <= n -> entry (n + 1) = Some (default 0 (entry n) + 1).
Proof.
  intros Hn. unfold entry.
  destruct (Z.eqb_spec (n + 1) 0); [lia |].
  destruct (Z.eqb_spec n 0) as [->|]; reflexivity.
Qed.

(** The first loop of [get_stats] computes these counts. *)
Lemma country_counts_spec (m : gmap string cert) k :
  map_fold count_country ∅ m !! k = entry (occurrences country_key k m).
Proof.
  revert k.
  apply (map_fold_weak_ind
    (fun r m => forall k, r !! k = entry (occurrences country_key k m))).
  - intros k. by rewrite occurrences_empty, lookup_empty.
  - clear m. intros i c m r Hi IH k.
    rewrite count_country_key, (occurrences_insert _ _ _ _ _ Hi).
    destruct (country_key c) as [k'|] eqn:Hkey.
    + destruct (decide (k' = k)) as [->|Hne].
      * rewrite lookup_insert_eq, decide_True by reflexivity.
        rewrite IH. symmetry. apply entry_succ, occurrences_nonneg.
      * rewrite lookup_insert_ne by exact Hne.
        rewrite decide_False by congruence. by rewrite Z.add_0_r.
    + rewrite decide_False by congruence. by rewrite Z.add_0_r.
Qed.

(** The second loop of [get_stats] never adds or removes a key. *)
Lemma region_counts_dom (m : gmap string cert) :
  dom (map_fold count_region region_counts0 m) = dom region_counts0.
Proof.
  apply (map_fold_weak_ind (fun r _ => dom r = dom region_counts0)); [done |].
  clear m. intros i c m r _ IH. unfold count_region.
  destruct (c !! "region") as [[|s]|]; try exact IH.
  destruct (r !! s) as [n|] eqn:Hs; [| exact IH].
  rewrite dom_insert_L, <- IH.
  apply (elem_of_dom_2 r) in Hs.
  apply subseteq_union_1_L. by apply singleton_subseteq_l.
Qed.


(** *** Rounding to one decimal *)

(** [tenths m e] is an integer nearest to [10 * m * 2^e]: exact for
    [0 <= e], and within half a unit of it otherwise (the distance is
    measured in units of [2^e]). *)
Lemma tenths_nearest m e :
  if 0 <=? e then tenths m e = 10 * Z.pos m * 2 ^ e
  else 2 * Z.abs (10 * Z.pos m - tenths m e * 2 ^ (- e)) <= 2 ^ (- e).
Proof.
  unfold tenths. destruct (Z.leb_spec 0 e) as [He|He]; [reflexivity |].
  set (n := 10 * Z.pos m). set (d := 2 ^ (- e)).
  assert (0 < d) as Hd by (apply Z.pow_pos_nonneg; lia).
  pose proof (Z.div_mod n d ltac:(lia)) as Hdm.
  pose proof (Z.mod_pos_bound n d Hd) as Hmod.
  destruct (Z.compare_spec (2 * (n mod d)) d) as [Heq|Hlt|Hgt];
    [destruct (Z.even (n / d)) | |]; nia.
Qed.

(** For totals up to 100 the float computation keeps a decimal nearest to
    the exact percentage, by evaluation of every case. *)
Lemma percentage_nearest_small :
  forallb (fun total =>
             forallb (fun count =>
                        nearest_tenth total count (percentage_tenths total count))
                     (seqZ 0 (total + 1)))
          (seqZ 1 100) = true.
Proof. vm_compute. reflexivity. Qed.

End LedgerFacts.

(** * The claims *)

Import Filter FilterSpec FilterFacts.

(** C5. [normalize_text] is idempotent: normalizing a normalized text
    changes nothing, for every input, and the empty text and [None] both
    normalize to the empty string. *)
Theorem normalize_text_idempotent (x : option string) :
  normalize_text (Some (normalize_text x)) = normalize_text x
  /\ normalize_text None = ""
  /\ normalize_text (Some "") = "".
Proof.
  split; [| split; reflexivity].
  destruct x as [s|]; [| reflexivity].
  rewrite !normalize_text_Some. apply pipeline_idempotent.
Qed.

(** C10. For every text and every iteration order of the blocked set, the
    boolean answer of [contains_profanity] is that of the whole-text
    substring check alone; and the normalization of a text is the
    concatenation of the normalizations of its whitespace-separated
    words. *)
Theorem word_pass_never_changes_answer order text :
  order ≡ₚ BLOCKED_WORDS ->
  fst (contains_profanity order text) = substring_check text
  /\ forall s,
       normalize_text (Some s)
       = str_concat (map (fun original_word => normalize_text (Some original_word))
                         (str_split (str_lower s))).
Proof.
  intros Hperm. split; [by apply has_profanity_substring |].
  intros s. rewrite map_normalize_words, str_split_pipeline, pipeline_lower.
  apply normalize_text_Some.
Qed.

Lemma word_pass_never_changes_answer_witness :
  BLOCKED_WORDS ≡ₚ BLOCKED_WORDS
  /\ fst (contains_profanity BLOCKED_WORDS (Some "you are a JERK"))
     = substring_check (Some "you are a JERK").
Proof.
  split; [reflexivity |].
  apply (word_pass_never_changes_answer BLOCKED_WORDS (Some "you are a JERK")).
  reflexivity.
Defined.

Lemma contains_substring order s t :
  order ≡ₚ BLOCKED_WORDS -> is_blocked t = true ->
  str_in t (normalize_text (Some s)) = true ->
  fst (contains_profanity order (Some s)) = true.
Proof.
  intros Hperm Ht Hin.
  rewrite (has_profanity_substring order (Some s) Hperm).
  apply existsb_exists. exists t. split; [by apply is_blocked_In | exact Hin].
Qed.

Lemma contains_exactly order s w :
  order ≡ₚ BLOCKED_WORDS ->
  s <> "" ->
  forallb (fun x => implb (str_in x (pipeline s)) (String.eqb x w))
          BLOCKED_WORDS = true ->
  existsb (fun x => str_in x (pipeline s) && String.eqb x w)
          BLOCKED_WORDS = true ->
  contains_profanity order (Some s) = (true, Some w).
Proof.
  intros Hperm Hs Hall Hex. destruct s as [|c r]; [done |].
  unfold contains_profanity. rewrite normalize_text_Some.
  by rewrite (find_unique _ order w Hperm Hall Hex).
Qed.

(** C6. A blocked term placed between two strings of letters is found,
    because the normalization of the concatenation is the lowered strings
    around the term; and the leet spellings [5h1t] and [h3ll0] are
    reported as [shit] and [hell], under every iteration order. *)
Theorem embedded_blocked_term_matches order t a b :
  order ≡ₚ BLOCKED_WORDS ->
  is_blocked t = true ->
  str_forall is_letter a = true ->
  str_forall is_letter b = true ->
  normalize_text (Some (a +:+ t +:+ b)) = str_lower a +:+ t +:+ str_lower b
  /\ str_in t (normalize_text (Some (a +:+ t +:+ b))) = true
  /\ fst (contains_profanity order (Some (a +:+ t +:+ b))) = true
  /\ contains_profanity order (Some "5h1t") = (true, Some "shit")
  /\ contains_profanity order (Some "h3ll0") = (true, Some "hell").
Proof.
  intros Hperm Ht Ha Hb.
  assert (pipeline t = t) as Hnorm.
  { pose proof blocked_normal as Hall. rewrite forallb_forall in Hall.
    apply String.eqb_eq, Hall, is_blocked_In, Ht. }
  assert (normalize_text (Some (a +:+ t +:+ b))
          = str_lower a +:+ t +:+ str_lower b) as Heq.
  { rewrite normalize_text_Some, !pipeline_app, Hnorm.
    by rewrite (pipeline_letters a Ha), (pipeline_letters b Hb). }
  assert (str_in t (normalize_text (Some (a +:+ t +:+ b))) = true) as Hin.
  { rewrite Heq. apply str_in_middle. }
  repeat split; [exact Heq | exact Hin | | |].
  - by apply (contains_substring order _ t).
  - by apply contains_exactly.
  - by apply contains_exactly.
Qed.

Lemma embedded_blocked_term_matches_witness :
  is_blocked "fuck" = true
  /\ str_forall is_letter "Bully" = true
  /\ str_forall is_letter "Ville" = true
  /\ normalize_text (Some "BullyfuckVille") = "bullyfuckville"
  /\ fst (contains_profanity BLOCKED_WORDS (Some "BullyfuckVille")) = true.
Proof.
  pose proof (embedded_blocked_term_matches
                BLOCKED_WORDS "fuck" "Bully" "Ville"
                (reflexivity _) eq_refl eq_refl eq_refl) as (H1 & _ & H3 & _).
  split; [reflexivity |]. split; [reflexivity |]. split; [reflexivity |].
  split; [exact H1 | exact H3].
Defined.

Lemma contains_clean_None order text :
  fst (contains_profanity order text) = false ->
  contains_profanity order text = (false, None).
Proof.
  unfold contains_profanity.
  destruct text as [[|c r]|]; try reflexivity.
  destruct (find _ order); [discriminate |].
  by destruct (find is_blocked _).
Qed.

Lemma check_all_fields_cons order k v rest :
  check_all_fields order ((k, v) :: rest) =
  match contains_profanity order v with
  | (true, matched) => (false, Some k, matched)
  | (false, _) => check_all_fields order rest
  end.
Proof. reflexivity. Qed.

Lemma check_all_fields_skip order pre fields :
  Forall (fun f : string * option string =>
            fst (contains_profanity order f.2) = false) pre ->
  check_all_fields order (pre ++ fields) = check_all_fields order fields.
Proof.
  induction 1 as [|[k v] pre Hk _ IH]; [reflexivity |].
  rewrite <- app_comm_cons, check_all_fields_cons.
  by rewrite (contains_clean_None order v Hk).
Qed.

(** C7. [check_all_fields] walks the fields in the order given and stops at
    the first one with blocked content: after a prefix of clean fields, an
    offending field is reported with its name and matched term whatever
    follows it; fields that are all clean give [(True, None, None)]; and
    the example of the two fields [a] and [b] reports [b] and [fuck]. *)
Theorem check_all_fields_first_offender order pre k v w rest :
  order ≡ₚ BLOCKED_WORDS ->
  Forall (fun f : string * option string =>
            fst (contains_profanity order f.2) = false) pre ->
  contains_profanity order v = (true, w) ->
  check_all_fields order (pre ++ (k, v) :: rest) = (false, Some k, w)
  /\ check_all_fields order pre = (true, None, None)
  /\ check_all_fields order [("a", Some "Clean Name"); ("b", Some "fuckface")]
     = (false, Some "b", Some "fuck").
Proof.
  intros Hperm Hpre Hv. split; [| split].
  - by rewrite (check_all_fields_skip order pre _ Hpre), check_all_fields_cons, Hv.
  - rewrite <- (app_nil_r pre). by rewrite (check_all_fields_skip order pre _ Hpre).
  - assert (contains_profanity order (Some "Clean Name") = (false, None)) as Hclean.
    { apply contains_clean_None.
      by rewrite (has_profanity_substring order _ Hperm). }
    assert (contains_profanity order (Some "fuckface") = (true, Some "fuck"))
      as Hb by by apply contains_exactly.
    by rewrite !check_all_fields_cons, Hclean, Hb.
Qed.

Lemma check_all_fields_first_offender_witness :
  Forall (fun f : string * option string =>
            fst (contains_profanity BLOCKED_WORDS f.2) = false)
         [("teacher_name", Some "Ms Ada Byron")]
  /\ contains_profanity BLOCKED_WORDS (Some "H3ll Academy") = (true, Some "hell")
  /\ check_all_fields BLOCKED_WORDS
       [("teacher_name", Some "Ms Ada Byron");
        ("school_name", Some "H3ll Academy");
        ("student_name", Some "sh1tty")]
     = (false, Some "school_name", Some "hell").
Proof.
  assert (Forall (fun f : string * option string =>
                    fst (contains_profanity BLOCKED_WORDS f.2) = false)
                 [("teacher_name", Some "Ms Ada Byron")]) as Hpre
    by (repeat constructor).
  split; [exact Hpre |]. split; [reflexivity |].
  exact (proj1 (check_all_fields_first_offender BLOCKED_WORDS
           [("teacher_name", Some "Ms Ada Byron")] "school_name"
           (Some "H3ll Academy") (Some "hell")
           [("student_name", Some "sh1tty")]
           (reflexivity _) Hpre eq_refl)).
Defined.

Import Ledger LedgerSpec LedgerFacts.
Local Open Scope Z_scope.

(** C1, as stated, fails: a School certificate recorded without a region is
    left out of [countries], where the specification counts it under
    [Unknown]; the same happens to an empty region string. *)
Lemma countries_omit_null_region :
  let e := Env true WriteOk in
  let st := snd (record_school_certificate e "2024-05-01T10:00:00"
                   "ABC123" (VStr "Oak School") VNone None) in
  let st' := snd (record_school_certificate e "2024-05-01T10:00:00"
                    "DEF456" (VStr "Elm School") (VStr "") None) in
  countries (get_stats e st) !! "Unknown" = None
  /\ spec_countByRegion (school_certificates (get_all_data e st)) !! "Unknown"
     = Some 1
  /\ countries (get_stats e st) = ∅
  /\ countries (get_stats e st') = ∅
  /\ countries (get_stats e st)
     <> spec_countByRegion (school_certificates (get_all_data e st)).
Proof.
  repeat split; try (vm_compute; reflexivity).
  intros H. apply (f_equal (fun m => m !! "Unknown")) in H.
  vm_compute in H. discriminate.
Qed.

(** C1, amended. [countries] maps a key to the number of School records
    filed under it, and has no other keys, where a record is filed under
    its region when that is a non-empty string, under [Unknown] when the
    record has no [region] field, and nowhere when its region is null or
    the empty string, which is what [record_school_certificate] stores for
    a missing region. *)
Theorem countries_counts_truthy_regions e st k now school_name r c :
  countries (get_stats e st) !! k
  = entry (occurrences country_key k (school_certificates (get_all_data e st)))
  /\ country_key (school_record now school_name (VStr r))
     = (if String.eqb r "" then None else Some r)
  /\ country_key (school_record now school_name VNone) = None
  /\ country_key (delete "region" c) = Some "Unknown".
Proof.
  split; [apply country_counts_spec |].
  unfold country_key, school_record. split; [| split].
  - by rewrite lookup_insert_ne, lookup_insert_eq.
  - by rewrite lookup_insert_ne, lookup_insert_eq.
  - by rewrite lookup_delete_eq.
Qed.

(** C2, as stated, fails: when reading the file raises [IOError] no failure
    reaches the caller. The recording call returns normally and replaces
    the ledger by one that holds only the new record, and [get_stats]
    reports an empty ledger. *)
Lemma read_failure_is_swallowed :
  let e := Env false WriteOk in
  let res := record_school_certificate e "2024-06-01T09:00:00" "DEF456"
               (VStr "Elm School") (VStr "England") one_school_ledger in
  fst res = Ok tt
  /\ snd res <> one_school_ledger
  /\ get_certificate_info (Env true WriteOk) "ABC123" one_school_ledger <> None
  /\ get_certificate_info (Env true WriteOk) "ABC123" (snd res) = None
  /\ totals (get_stats e one_school_ledger) = Stats 0 0.
Proof.
  pose (found := fun st => match get_certificate_info (Env true WriteOk) "ABC123" st
                           with Some _ => true | None => false end).
  split; [reflexivity |]. split; [| split; [| split]].
  - intros H. apply (f_equal found) in H. vm_compute in H. discriminate.
  - intros H. apply (f_equal (fun o : option cert =>
                                match o with Some _ => true | None => false end)) in H.
    vm_compute in H. discriminate.
  - vm_compute. reflexivity.
  - reflexivity.
Qed.

(** C2, amended. A failure to open or read the file is caught like an
    unparseable document: the call goes on from the default structure and
    nothing is raised or retried for it. The reading operations answer as
    for an absent file; a recording operation saves the default structure
    plus the new record. What [_save_data] raises does reach the caller:
    nothing when the write succeeds, [IOError] with the file untouched when
    [open] fails, [IOError] with a truncated file when [json.dump] fails. *)
Theorem read_failure_recovers_like_corruption w st now cert_id school_name region :
  let e := Env false w in
  _load_data e st = default_data
  /\ get_all_data e st = get_all_data e (Some Garbage)
  /\ get_stats e st = get_stats e None
  /\ get_certificate_info e cert_id st = None
  /\ record_school_certificate e now cert_id school_name region st
     = match w with
       | WriteOk =>
           (Ok tt, Some (Json (add_school now cert_id school_name region
                                           default_data)))
       | OpenFails => (Raise IOError, st)
       | DumpFails => (Raise IOError, Some Garbage)
       end
  /\ record_student_certificate e now cert_id school_name st
     = match w with
       | WriteOk =>
           (Ok tt, Some (Json (add_student now cert_id school_name default_data)))
       | OpenFails => (Raise IOError, st)
       | DumpFails => (Raise IOError, Some Garbage)
       end.
Proof.
  intros e. pose proof (load_unreadable w st) as Hload. fold e in Hload.
  split; [exact Hload |]. split; [| split; [| split; [| split]]].
  - unfold get_all_data. by rewrite Hload, load_garbage.
  - unfold get_stats. by rewrite Hload.
  - unfold get_certificate_info. by rewrite Hload.
  - rewrite record_school_certificate_eq, Hload. by destruct w.
  - rewrite record_student_certificate_eq, Hload. by destruct w.
Qed.


(** C9. After every sequence of recording calls from the empty ledger, under
    whatever I/O conditions, every School record that is loaded holds
    exactly the fields [school_name], [region] and [date] and every Student
    record exactly [school_name] and [date]; and what a successful call
    stores is made of its school name, its region and the time of the call
    alone: the operations take no other argument. *)
Theorem records_hold_only_school_level_data calls e r now cert_id school_name region st :
  only_school_level_data (get_all_data e (run calls None))
  /\ school_certificates
       (get_all_data (Env true WriteOk)
          (snd (record_school_certificate (Env r WriteOk) now cert_id
                  school_name region st))) !! cert_id
     = Some {[ "school_name" := school_name; "region" := region;
               "date" := VStr now ]}
  /\ student_certificates
       (get_all_data (Env true WriteOk)
          (snd (record_student_certificate (Env r WriteOk) now cert_id
                  school_name st))) !! cert_id
     = Some {[ "school_name" := school_name; "date" := VStr now ]}.
Proof.
  split; [| split].
  - apply (invariant_run only_school_level_data).
    + apply only_school_level_data_default.
    + apply only_school_level_data_apply.
  - rewrite record_school_certificate_eq. simpl. apply lookup_insert_eq.
  - rewrite record_student_certificate_eq. simpl. apply lookup_insert_eq.
Qed.

(** C3. After every sequence of recording calls from the empty ledger the
    two totals that [get_stats] reports are the numbers of entries of the
    two mappings. A recording call whose write succeeds returns normally
    whether or not the id exists: the mapping afterwards is the old one with
    the entry of that id set to the new record, so an existing record is
    replaced, and the total stays the same for an id that existed and grows
    by one for a new id. *)
Theorem totals_count_distinct_ids calls e r now cert_id school_name region :
  let st := run calls None in
  let e1 := Env r WriteOk in
  let e2 := Env true WriteOk in
  let d := get_all_data e1 st in
  let school := record_school_certificate e1 now cert_id school_name region st in
  let student := record_student_certificate e1 now cert_id school_name st in
  (total_school_certificates (totals (get_stats e st))
   = len (school_certificates (get_all_data e st))
   /\ total_student_certificates (totals (get_stats e st))
      = len (student_certificates (get_all_data e st)))
  /\ (fst school = Ok tt
      /\ school_certificates (get_all_data e2 (snd school))
         = <[cert_id := school_record now school_name region]>
             (school_certificates d)
      /\ total_school_certificates (totals (get_stats e2 (snd school)))
         = match school_certificates d !! cert_id with
           | Some _ => total_school_certificates (totals (get_stats e1 st))
           | None => total_school_certificates (totals (get_stats e1 st)) + 1
           end)
  /\ (fst student = Ok tt
      /\ student_certificates (get_all_data e2 (snd student))
         = <[cert_id := student_record now school_name]>
             (student_certificates d)
      /\ total_student_certificates (totals (get_stats e2 (snd student)))
         = match student_certificates d !! cert_id with
           | Some _ => total_student_certificates (totals (get_stats e1 st))
           | None => total_student_certificates (totals (get_stats e1 st)) + 1
           end).
Proof.
  intros st e1 e2 d school student.
  assert (forall e, totals_agree (_load_data e st)) as Hagree.
  { intros e'. apply (invariant_run totals_agree).
    - apply totals_agree_default.
    - apply totals_agree_apply. }
  split; [exact (Hagree e) |].
  destruct (Hagree e1) as [Hs Ht].
  split; (split; [reflexivity |]); (split; [reflexivity |]).
  - unfold school, d, get_all_data, get_stats.
    rewrite record_school_certificate_eq. simpl. rewrite Hs.
    unfold len. rewrite map_size_insert.
    destruct (school_certificates (_load_data e1 st) !! cert_id); simpl; lia.
  - unfold student, d, get_all_data, get_stats.
    rewrite record_student_certificate_eq. simpl. rewrite Ht.
    unfold len. rewrite map_size_insert.
    destruct (student_certificates (_load_data e1 st) !! cert_id); simpl; lia.
Qed.



(** * Further properties of the content filter *)

Module FilterMore.
Import Filter FilterSpec FilterFacts.

Lemma leet_char_lookup c : leet_char c = default c (leet_lookup c).
Proof. each_char c. Qed.

Lemma length_str_map f s : String.length (str_map f s) = String.length s.
Proof. induction s as [|c s IH]; simpl; [reflexivity | by rewrite IH]. Qed.

Lemma length_str_filter p s :
  (String.length (str_filter p s) <= String.length s)%nat.
Proof.
  induction s as [|c s IH]; simpl; [lia |]. destruct (p c); simpl; lia.
Qed.

Lemma length_pipeline s : (String.length (pipeline s) <= String.length s)%nat.
Proof.
  rewrite pipeline_char_wise.
  etransitivity; [apply length_str_filter |]. by rewrite length_str_map.
Qed.

Lemma prefix_length w s :
  String.prefix w s = true -> (String.length w <= String.length s)%nat.
Proof.
  revert s. induction w as [|x w IH]; intros s; simpl; [lia |].
  destruct s as [|y s]; simpl; [discriminate |].
  destruct (ascii_dec x y); [| discriminate].
  intros H%IH. lia.
Qed.

Lemma str_in_length w s :
  str_in w s = true -> (String.length w <= String.length s)%nat.
Proof.
  induction s as [|c s IH]; rewrite str_in_unfold.
  - rewrite orb_false_r. apply prefix_length.
  - intros [H|H]%orb_prop; [by apply prefix_length |].
    apply IH in H. simpl. lia.
Qed.

(** Under an iteration order of the blocked set, the answer is read off
    the first loop alone. *)
Lemma contains_profanity_find order text :
  order ≡ₚ BLOCKED_WORDS ->
  contains_profanity order text =
  match find (fun word => str_in word (normalize_text text)) order with
  | Some word => (true, Some word)
  | None => (false, None)
  end.
Proof.
  intros Hperm.
  destruct (find _ order) as [w|] eqn:Hfind.
  - destruct text as [[|c r]|].
    + change (normalize_text (Some "")) with "" in Hfind.
      rewrite (find_absent _ order Hperm blocked_nonempty) in Hfind. discriminate.
    + unfold contains_profanity. by rewrite Hfind.
    + change (normalize_text None) with "" in Hfind.
      rewrite (find_absent _ order Hperm blocked_nonempty) in Hfind. discriminate.
  - apply contains_clean_None.
    rewrite (has_profanity_substring order text Hperm). unfold substring_check.
    rewrite <- (existsb_perm _ order Hperm), find_existsb. by rewrite Hfind.
Qed.

Lemma blocked_length :
  forallb (fun word => 3 <=? String.length word)%nat BLOCKED_WORDS = true.
Proof. reflexivity. Qed.

End FilterMore.

(** * Further properties of the ledger *)

Module LedgerMore.
Import Ledger LedgerSpec LedgerFacts.
Local Open Scope Z_scope.

Lemma load_readable w st :
  _load_data (Env true w) st
  = match st with Some (Json d) => d | _ => default_data end.
Proof. by destruct st as [[|d]|]. Qed.

(** Under working I/O the storage after a sequence of calls holds the
    replayed document. *)
Lemma run_good calls st w :
  Forall good_io calls ->
  _load_data (Env true w) (run calls st)
  = replay calls (_load_data (Env true w) st).
Proof.
  intros Hgood. revert st.
  induction Hgood as [|[[e now] op] calls He _ IH]; intros st; [reflexivity |].
  unfold good_io in He. simpl in He. subst e.
  change (run (((Env true WriteOk), now, op) :: calls) st)
    with (run calls (snd (step st (Env true WriteOk, now, op)))).
  rewrite IH, step_eq. simpl. by rewrite !load_readable.
Qed.

Lemma replay_school cert_id calls d :
  school_certificates (replay calls d) !! cert_id
  = match last_school cert_id calls with
    | Some r => Some r
    | None => school_certificates d !! cert_id
    end.
Proof.
  revert d. induction calls as [|[[e now] op] calls IH]; intros d; [reflexivity |].
  change (replay ((e, now, op) :: calls) d)
    with (replay calls (apply_call now op d)).
  rewrite IH. simpl. destruct (last_school cert_id calls); [reflexivity |].
  destruct op as [id n r|id n]; simpl; [| reflexivity].
  case_decide as Hid.
  - subst id. apply lookup_insert_eq.
  - by apply lookup_insert_ne.
Qed.

Lemma replay_student cert_id calls d :
  student_certificates (replay calls d) !! cert_id
  = match last_student cert_id calls with
    | Some r => Some r
    | None => student_certificates d !! cert_id
    end.
Proof.
  revert d. induction calls as [|[[e now] op] calls IH]; intros d; [reflexivity |].
  change (replay ((e, now, op) :: calls) d)
    with (replay calls (apply_call now op d)).
  rewrite IH. simpl. destruct (last_student cert_id calls); [reflexivity |].
  destruct op as [id n r|id n]; simpl; [reflexivity |].
  case_decide as Hid.
  - subst id. apply lookup_insert_eq.
  - by apply lookup_insert_ne.
Qed.

Lemma replay_school_dom calls d :
  dom (school_certificates (replay calls d))
  = list_to_set (school_ids calls) ∪ dom (school_certificates d).
Proof.
  revert d. induction calls as [|[[e now] op] calls IH]; intros d.
  - simpl. set_solver.
  - change (replay ((e, now, op) :: calls) d)
      with (replay calls (apply_call now op d)).
    rewrite IH. destruct op as [id n r|id n]; simpl.
    + rewrite dom_insert_L. unfold school_ids. simpl. set_solver.
    + unfold school_ids. simpl. reflexivity.
Qed.

Lemma replay_student_dom calls d :
  dom (student_certificates (replay calls d))
  = list_to_set (student_ids calls) ∪ dom (student_certificates d).
Proof.
  revert d. induction calls as [|[[e now] op] calls IH]; intros d.
  - simpl. set_solver.
  - change (replay ((e, now, op) :: calls) d)
      with (replay calls (apply_call now op d)).
    rewrite IH. destruct op as [id n r|id n]; simpl.
    + unfold student_ids. simpl. reflexivity.
    + rewrite dom_insert_L. unfold student_ids. simpl. set_solver.
Qed.

Lemma count_region_key cert_id c acc :
  count_region cert_id c acc =
  match region_key c with
  | Some r => match acc !! r with
              | Some n => <[r := n + 1]> acc
              | None => acc
              end
  | None => acc
  end.
Proof.
  unfold count_region, region_key.
  by destruct (c !! "region") as [[|s]|].
Qed.

(** The second loop of [get_stats] counts, for each of the four regions,
    the records whose region is that string. *)
Lemma region_counts_spec (m : gmap string cert) r :
  r ∈ fixed_regions ->
  map_fold count_region region_counts0 m !! r
  = Some (occurrences region_key r m).
Proof.
  intros Hr. revert r Hr.
  apply (map_fold_weak_ind
    (fun acc m => forall r, r ∈ fixed_regions ->
                            acc !! r = Some (occurrences region_key r m))).
  - intros r Hr. rewrite occurrences_empty. unfold fixed_regions in Hr.
    assert (r = "England" \/ r = "Wales" \/ r = "Northern Ireland"
            \/ r = "Scotland") as [-> | [-> | [-> | ->]]] by set_solver;
      reflexivity.
  - clear m. intros i c m acc Hi IH r Hr.
    rewrite count_region_key, (occurrences_insert _ _ _ _ _ Hi).
    destruct (region_key c) as [k|] eqn:Hkey.
    + destruct (decide (k = r)) as [->|Hne].
      * rewrite (IH r Hr), lookup_insert_eq, decide_True by reflexivity.
        reflexivity.
      * rewrite decide_False by congruence. rewrite Z.add_0_r.
        destruct (acc !! k); [rewrite lookup_insert_ne by exact Hne |];
          by apply IH.
    + rewrite decide_False by congruence. rewrite Z.add_0_r. by apply IH.
Qed.

Lemma country_region_occurrences r (m : gmap string cert) :
  r <> "" -> r <> "Unknown" ->
  occurrences country_key r m = occurrences region_key r m.
Proof.
  intros Hne Hunk. unfold occurrences. f_equal. f_equal.
  apply map_filter_ext. intros i c _. simpl.
  unfold country_key, region_key.
  destruct (c !! "region") as [[|s]|]; [done | | naive_solver].
  destruct (String.eqb_spec s ""); naive_solver.
Qed.

Lemma fixed_region_names r :
  r ∈ fixed_regions -> r <> "" /\ r <> "Unknown".
Proof.
  unfold fixed_regions. intros Hr.
  assert (r = "England" \/ r = "Wales" \/ r = "Northern Ireland"
          \/ r = "Scotland") as [-> | [-> | [-> | ->]]] by set_solver;
    split; discriminate.
Qed.

Lemma default_entry n : 0 <= n -> default 0 (entry n) = n.
Proof. intros Hn. unfold entry. by destruct (Z.eqb_spec n 0) as [->|]. Qed.

(** Summing a dictionary of counts. *)

Lemma sum_counts_insert_None (m : gmap string Z) k v :
  m !! k = None -> sum_counts (<[k:=v]> m) = v + sum_counts m.
Proof.
  intros Hk. unfold sum_counts.
  rewrite map_fold_insert_L; [reflexivity | | exact Hk].
  intros; lia.
Qed.

Lemma sum_counts_insert (m : gmap string Z) k v :
  sum_counts (<[k:=v]> m) = sum_counts m - default 0 (m !! k) + v.
Proof.
  destruct (m !! k) as [old|] eqn:Hk; simpl.
  - rewrite <- (insert_delete_eq m k v).
    rewrite <- (insert_delete_id m k old Hk) at 2.
    rewrite !sum_counts_insert_None by apply lookup_delete_eq. lia.
  - rewrite sum_counts_insert_None by exact Hk. lia.
Qed.

Lemma counted_insert (m : gmap string cert) i c :
  m !! i = None ->
  len (counted (<[i:=c]> m))
  = len (counted m) + match country_key c with Some _ => 1 | None => 0 end.
Proof.
  intros Hi. unfold counted, len.
  destruct (country_key c) as [k|] eqn:Hkey.
  - rewrite map_filter_insert_True by (simpl; rewrite Hkey; eauto).
    rewrite map_size_insert_None; [lia |].
    apply map_lookup_filter_None. by left.
  - rewrite map_filter_insert_not'; [lia | |].
    + simpl. rewrite Hkey. by intros [? ?].
    + intros y Hy. by rewrite Hi in Hy.
Qed.

(** The counts of the first loop of [get_stats] add up to the number of
    records it counts. *)
Lemma country_counts_sum (m : gmap string cert) :
  sum_counts (map_fold count_country ∅ m) = len (counted m).
Proof.
  apply (map_fold_weak_ind (fun acc m => sum_counts acc = len (counted m))).
  - reflexivity.
  - clear m. intros i c m acc Hi IH.
    rewrite count_country_key, (counted_insert _ _ _ Hi).
    destruct (country_key c) as [k|]; [| lia].
    rewrite sum_counts_insert. lia.
Qed.

Lemma counted_le (m : gmap string cert) : len (counted m) <= len m.
Proof.
  unfold counted, len. apply Nat2Z.inj_le, map_subseteq_size.
  apply map_filter_subseteq.
Qed.

End LedgerMore.

(** * Properties of the routes *)

Module AppFacts.
Import Filter Ledger App FilterSpec LedgerSpec AppSpec FilterFacts LedgerFacts
       FilterMore LedgerMore.
Local Open Scope string_scope.

Lemma record_school_ok e now id n r st :
  fst (record_school_certificate e now id n r st) = Ok tt <-> write e = WriteOk.
Proof.
  rewrite record_school_certificate_eq. unfold _save_data.
  destruct (write e); simpl; split; congruence.
Qed.

Lemma record_student_ok e now id n st :
  fst (record_student_certificate e now id n st) = Ok tt <-> write e = WriteOk.
Proof.
  rewrite record_student_certificate_eq. unfold _save_data.
  destruct (write e); simpl; split; congruence.
Qed.

Lemma check_all_fields_ok order fields :
  check_all_fields order fields = (forallb (clean order) fields,
                                   snd (fst (check_all_fields order fields)),
                                   snd (check_all_fields order fields)).
Proof.
  induction fields as [|[k v] fields IH]; [reflexivity |].
  rewrite check_all_fields_cons.
  change (forallb (clean order) ((k, v) :: fields))
    with (negb (fst (contains_profanity order v)) && forallb (clean order) fields).
  destruct (contains_profanity order v) as [[|] m]; simpl; [reflexivity |].
  rewrite IH at 1. reflexivity.
Qed.

Lemma clean_substring order k text :
  order ≡ₚ BLOCKED_WORDS ->
  clean order (k, text) = negb (substring_check text).
Proof. intros Hperm. unfold clean. simpl. by rewrite has_profanity_substring. Qed.

(** What a route does to the ledger file is nothing, or one recording call
    of the kind the routes make. *)
Lemma serve_storage order st r :
  storage_after (serve order st r) = st
  \/ exists e now op,
       app_call op /\ storage_after (serve order st r) = snd (step st (e, now, op)).
Proof.
  destruct r as [w [form session|form session]]; unfold serve; simpl.
  - unfold register.
    destruct (_ || _ || _) eqn:Hblank; [by left |].
    apply orb_false_elim in Hblank as [_ Hregion].
    destruct (check_all_fields order _) as [[[|] ?] ?]; [| by left].
    destruct (pdf w); [| by left].
    right. exists (io w), (now w),
      (RecordSchool (cert_id w) (VStr (str_strip (default "" (form !! "school_name"))))
                    (VStr (str_strip (default "" (form !! "region"))))).
    split; [by apply String.eqb_neq |].
    simpl. by destruct (record_school_certificate _ _ _ _ _ _) as [[|] ?].
  - unfold generate_student_cert.
    destruct (session !! "school_name") as [school_name|]; [| by left].
    destruct (String.eqb _ _); [by left |].
    destruct (check_all_fields order _) as [[[|] ?] ?]; [| by left].
    destruct (pdf w); [| by left].
    right. exists (io w), (now w), (RecordStudent (cert_id w) (VStr school_name)).
    split; [done |].
    simpl. by destruct (record_student_certificate _ _ _ _ _) as [[|] ?].
Qed.

Lemma app_ledger_default : app_ledger default_data.
Proof. split; [apply totals_agree_default | apply map_Forall_empty]. Qed.

Lemma app_ledger_apply now op d :
  app_call op -> app_ledger d -> app_ledger (apply_call now op d).
Proof.
  intros Hop [Hagree Hcounted]. split; [by apply totals_agree_apply |].
  destruct op as [id [|n] [|r]|id [|n]]; try done; simpl in *.
  apply map_Forall_insert_2; [| exact Hcounted].
  unfold country_key, school_record.
  rewrite lookup_insert_ne, lookup_insert_eq by done.
  apply String.eqb_neq in Hop. rewrite Hop. eauto.
Qed.

Lemma app_ledger_serve order st r :
  holds app_ledger st -> holds app_ledger (storage_after (serve order st r)).
Proof.
  intros H. destruct (serve_storage order st r) as [->|(e & now & op & Hop & ->)];
    [exact H |].
  rewrite step_eq. unfold _save_data. destruct (write e); simpl; [| exact H | exact I].
  apply app_ledger_apply; [exact Hop |].
  destruct (load_cases e st) as [->|(d & -> & ->)];
    [apply app_ledger_default | exact H].
Qed.

Lemma app_ledger_serve_all order requests st :
  holds app_ledger st -> holds app_ledger (serve_all order requests st).
Proof.
  revert st. induction requests as [|r requests IH]; intros st H; [exact H |].
  apply IH, app_ledger_serve, H.
Qed.

Lemma counted_all (m : gmap string cert) :
  map_Forall (fun _ (c : cert) => is_Some (country_key c)) m -> counted m = m.
Proof.
  intros H. unfold counted. apply map_filter_id. intros i c Hi. by apply (H i c).
Qed.

End AppFacts.

(** * Properties of the colour conversion *)

Module PdfFacts.
Import Filter Ledger Pdf FilterSpec PdfSpec FilterFacts.
Local Open Scope Z_scope.

Lemma in_all_chars c : In c all_chars.
Proof.
  unfold all_chars. apply in_map_iff.
  exists (N.to_nat (N_of_ascii c)). split.
  - rewrite N2Nat.id. apply ascii_N_embedding.
  - apply in_seq. pose proof (N_ascii_bounded c). lia.
Qed.

Lemma int16_hex_byte_all :
  forallb (fun n =>
             forallb (fun u1 =>
                        forallb (fun u2 =>
                                   match int16 (hex_byte u1 u2 n) with
                                   | Some v => v =? n
                                   | None => false
                                   end)
                                [true; false])
                     [true; false])
          (seqZ 0 256) = true.
Proof. vm_compute. reflexivity. Qed.

Lemma int16_hex_byte u1 u2 n :
  0 <= n <= 255 -> int16 (hex_byte u1 u2 n) = Some n.
Proof.
  intros Hn. pose proof int16_hex_byte_all as H.
  rewrite forallb_forall in H.
  assert (In n (seqZ 0 256)) as Hin
    by (apply list_elem_of_In, elem_of_seqZ; lia).
  specialize (H n Hin). rewrite forallb_forall in H.
  assert (In u1 [true; false]) as H1 by (destruct u1; simpl; tauto).
  specialize (H u1 H1). rewrite forallb_forall in H.
  assert (In u2 [true; false]) as H2 by (destruct u2; simpl; tauto).
  specialize (H u2 H2).
  destruct (int16 (hex_byte u1 u2 n)) as [v|]; [| discriminate].
  by apply Z.eqb_eq in H as ->.
Qed.

Lemma hex_char_not_hash u d : 0 <= d <= 15 -> Ascii.eqb (hex_char u d) "#" = false.
Proof.
  intros Hd.
  assert (d = 0 \/ d = 1 \/ d = 2 \/ d = 3 \/ d = 4 \/ d = 5 \/ d = 6 \/ d = 7
          \/ d = 8 \/ d = 9 \/ d = 10 \/ d = 11 \/ d = 12 \/ d = 13 \/ d = 14
          \/ d = 15) as H by lia.
  destruct u; repeat (destruct H as [->|H]; [reflexivity |]); by subst.
Qed.

Lemma lstrip_hash_hashes n s : lstrip_hash (hashes n +:+ s) = lstrip_hash s.
Proof. induction n as [|n IH]; [reflexivity | exact IH]. Qed.

(** Every number read from at most two characters lies between -15 and
    255. *)
Lemma int16_two_chars_all :
  forallb (fun a =>
             match int16 (String a EmptyString) with
             | Some v => (-15 <=? v) && (v <=? 255)
             | None => true
             end
             && forallb (fun b =>
                           match int16 (String a (String b EmptyString)) with
                           | Some v => (-15 <=? v) && (v <=? 255)
                           | None => true
                           end)
                        all_chars)
          all_chars = true.
Proof. vm_compute. reflexivity. Qed.

Lemma int16_short s v :
  (String.length s <= 2)%nat -> int16 s = Some v -> -15 <= v <= 255.
Proof.
  intros Hlen Hv. pose proof int16_two_chars_all as H.
  rewrite forallb_forall in H.
  destruct s as [|a [|b [|c s]]]; [discriminate | | | simpl in Hlen; lia].
  - specialize (H a (in_all_chars a)). apply andb_prop in H as [H _].
    rewrite Hv in H. lia.
  - specialize (H a (in_all_chars a)). apply andb_prop in H as [_ H].
    rewrite forallb_forall in H. specialize (H b (in_all_chars b)).
    rewrite Hv in H. lia.
Qed.

Lemma length_substring n m s : (String.length (substring n m s) <= m)%nat.
Proof.
  revert n m. induction s as [|c s IH]; intros n m.
  - destruct n, m; simpl; lia.
  - destruct n as [|n]; [destruct m as [|m]; simpl; [lia |] | simpl; apply IH].
    specialize (IH O m). lia.
Qed.

Lemma substring_short s :
  (String.length s <= 4)%nat -> substring 4 2 s = EmptyString.
Proof.
  destruct s as [|a [|b [|c [|d [|e s]]]]]; simpl; try reflexivity. lia.
Qed.

Lemma over_255_bounds_all :
  forallb (fun n =>
             SFleb float_zero (over_255 n) && SFleb (over_255 n) float_one
             && Bool.eqb (SFeqb (over_255 n) float_zero) (n =? 0)
             && Bool.eqb (SFeqb (over_255 n) float_one) (n =? 255))
          (seqZ 0 256) = true.
Proof. vm_compute. reflexivity. Qed.

End PdfFacts.

(** * Further properties *)

Import FilterMore.
Local Open Scope string_scope.

(** X1. The result of [normalize_text] consists of the letters a to z only
    and is never longer than the text given. *)
Theorem normalize_text_letters_only text :
  str_forall is_az (normalize_text text) = true
  /\ (String.length (normalize_text text) <= String.length (default "" text))%nat.
Proof.
  destruct text as [s|]; [| split; [reflexivity | simpl; lia]].
  rewrite normalize_text_Some. split; [apply pipeline_is_az | apply length_pipeline].
Qed.

(** X2. [normalize_text] commutes with concatenation: normalizing two texts
    joined end to end gives the two normalizations joined. *)
Theorem normalize_text_concat a b :
  normalize_text (Some (a +:+ b))
  = normalize_text (Some a) +:+ normalize_text (Some b).
Proof. rewrite !normalize_text_Some. apply pipeline_app. Qed.

Lemma str_map_ext f g s : (forall c, f c = g c) -> str_map f s = str_map g s.
Proof.
  intros H. induction s as [|c s IH]; simpl; [reflexivity | by rewrite H, IH].
Qed.

(** X3. The eleven [replace] passes over the whole text amount to one
    simultaneous substitution: each character is replaced by its entry in
    [LEET_SPEAK_MAP], if it has one, and no character is rewritten twice. *)
Theorem replace_leet_simultaneous s :
  replace_leet s = str_map (fun c => default c (leet_lookup c)) s.
Proof. rewrite replace_leet_map. apply str_map_ext, leet_char_lookup. Qed.

(** X4. The answer of [contains_profanity], matched word included, depends
    on the text only through its normalization: case, spacing, punctuation
    and leet spelling make no difference. *)
Theorem contains_profanity_by_normal_form order a b :
  order ≡ₚ BLOCKED_WORDS ->
  normalize_text a = normalize_text b ->
  contains_profanity order a = contains_profanity order b.
Proof.
  intros Hperm Heq. rewrite !(contains_profanity_find order _ Hperm).
  by rewrite Heq.
Qed.

Lemma contains_profanity_by_normal_form_witness :
  normalize_text (Some "B-A-5-T-A-R-D") = normalize_text (Some "bastard")
  /\ contains_profanity BLOCKED_WORDS (Some "B-A-5-T-A-R-D")
     = contains_profanity BLOCKED_WORDS (Some "bastard").
Proof.
  split; [reflexivity |].
  apply (contains_profanity_by_normal_form BLOCKED_WORDS);
    reflexivity.
Defined.

(** X5. What [contains_profanity] returns is either [(True, w)] with [w] a
    blocked word that occurs in the normalized text, or [(False, None)]
    when no blocked word occurs in it. *)
Theorem contains_profanity_result order text :
  order ≡ₚ BLOCKED_WORDS ->
  match contains_profanity order text with
  | (true, Some w) =>
      is_blocked w = true /\ str_in w (normalize_text text) = true
  | (false, None) => substring_check text = false
  | _ => False
  end.
Proof.
  intros Hperm. rewrite (contains_profanity_find order text Hperm).
  destruct (find _ order) as [w|] eqn:Hfind.
  - apply find_some in Hfind as [Hin Hw]. split; [| exact Hw].
    by apply is_blocked_In, (perm_In order w Hperm).
  - unfold substring_check.
    rewrite <- (existsb_perm _ order Hperm), find_existsb. by rewrite Hfind.
Qed.

Lemma contains_profanity_result_witness :
  is_blocked "hell" = true
  /\ str_in "hell" (normalize_text (Some "H3LL0 there")) = true.
Proof.
  exact (contains_profanity_result BLOCKED_WORDS (Some "H3LL0 there")
           (reflexivity _)).
Defined.

(** X6. A text that is rejected stays rejected inside any longer text: the
    filter also rejects every name that merely embeds a blocked word. *)
Theorem rejected_inside_longer_text order a s b :
  order ≡ₚ BLOCKED_WORDS ->
  fst (contains_profanity order (Some s)) = true ->
  fst (contains_profanity order (Some (a +:+ s +:+ b))) = true.
Proof.
  intros Hperm. rewrite !(has_profanity_substring order _ Hperm).
  unfold substring_check. rewrite !existsb_exists.
  intros (w & Hin & Hw). exists w. split; [exact Hin |].
  rewrite normalize_text_Some in *. rewrite !pipeline_app.
  by apply str_in_app_r, str_in_app_l.
Qed.

Lemma rejected_inside_longer_text_witness :
  fst (contains_profanity BLOCKED_WORDS (Some "sex")) = true
  /\ fst (contains_profanity BLOCKED_WORDS (Some ("Es" +:+ "sex" +:+ " Primary School")))
     = true.
Proof.
  split; [reflexivity |].
  apply (rejected_inside_longer_text BLOCKED_WORDS "Es" "sex" " Primary School");
    reflexivity.
Defined.

(** X7. A text whose normalization has fewer than three letters is never
    rejected: every blocked word has at least three. *)
Theorem short_text_is_clean order text :
  order ≡ₚ BLOCKED_WORDS ->
  (String.length (normalize_text text) < 3)%nat ->
  contains_profanity order text = (false, None).
Proof.
  intros Hperm Hlen. apply contains_clean_None.
  rewrite (has_profanity_substring order text Hperm). unfold substring_check.
  destruct (existsb _ _) eqn:Hex; [| reflexivity].
  apply existsb_exists in Hex as (w & Hin & Hw).
  apply str_in_length in Hw.
  pose proof blocked_length as Hall. rewrite forallb_forall in Hall.
  apply Hall, Nat.leb_le in Hin. lia.
Qed.

Lemma short_text_is_clean_witness :
  (String.length (normalize_text (Some "Jo 2.")) < 3)%nat
  /\ contains_profanity BLOCKED_WORDS (Some "Jo 2.") = (false, None).
Proof.
  assert (String.length (normalize_text (Some "Jo 2.")) < 3)%nat as H
    by (vm_compute; lia).
  split; [exact H |].
  exact (short_text_is_clean BLOCKED_WORDS (Some "Jo 2.") (reflexivity _) H).
Defined.

(** X8. [check_all_fields] answers [True] exactly when every field passes
    [contains_profanity]; when it answers [False], the field it names is
    one of those given, every field before it passes, and the word it
    reports is the one matched in that field. *)
Theorem check_all_fields_sound order fields :
  fst (fst (check_all_fields order fields)) = forallb (clean order) fields
  /\ forall name w,
       check_all_fields order fields = (false, name, w) ->
       exists pre k v rest,
         fields = (pre ++ (k, v) :: rest)%list
         /\ name = Some k
         /\ forallb (clean order) pre = true
         /\ contains_profanity order v = (true, w).
Proof.
  induction fields as [|[k v] fields [IH1 IH2]]; [split; [reflexivity | discriminate] |].
  rewrite check_all_fields_cons.
  change (forallb (clean order) ((k, v) :: fields))
    with (negb (fst (contains_profanity order v)) && forallb (clean order) fields).
  destruct (contains_profanity order v) as [[|] m] eqn:Hv; simpl.
  - split; [reflexivity |]. intros name w [= <- <-].
    by exists [], k, v, fields.
  - split; [exact IH1 |]. intros name w Hcheck.
    destruct (IH2 name w Hcheck) as (pre & k' & v' & rest & -> & -> & Hpre & Hv').
    exists ((k, v) :: pre), k', v', rest.
    split; [reflexivity |]. split; [reflexivity |]. split; [| exact Hv'].
    change (forallb (clean order) ((k, v) :: pre))
      with (negb (fst (contains_profanity order v)) && forallb (clean order) pre).
    by rewrite Hv, Hpre.
Qed.

Lemma check_all_fields_sound_witness :
  let fields := [("teacher_name", Some "Ms Byron"); ("school_name", Some "H3ll Academy")] in
  check_all_fields BLOCKED_WORDS fields = (false, Some "school_name", Some "hell")
  /\ exists pre k v rest,
       fields = (pre ++ (k, v) :: rest)%list
       /\ Some "school_name" = Some k
       /\ forallb (clean BLOCKED_WORDS) pre = true
       /\ contains_profanity BLOCKED_WORDS v = (true, Some "hell").
Proof.
  intros fields.
  assert (check_all_fields BLOCKED_WORDS fields
          = (false, Some "school_name", Some "hell")) as H by reflexivity.
  split; [exact H |].
  exact (proj2 (check_all_fields_sound BLOCKED_WORDS fields) _ _ H).
Defined.

Import LedgerMore.
Local Open Scope Z_scope.

Lemma lookup_new_school_record r w now cert_id school_name region st :
  get_certificate_info (Env true w) cert_id
    (snd (record_school_certificate (Env r WriteOk) now cert_id
            school_name region st))
  = Some {[ "type" := VStr "school"; "school_name" := school_name;
            "region" := region; "date" := VStr now ]}.
Proof.
  rewrite record_school_certificate_eq. unfold get_certificate_info. simpl.
  rewrite lookup_insert_eq. reflexivity.
Qed.

(** X9. Looking up an id right after a School certificate was recorded under
    it returns that record, tagged with the type [school]: the school name,
    the region and the time of the call, whatever the ledger held before. *)
Theorem lookup_after_school_record r w now cert_id school_name region st :
  get_certificate_info (Env true w) cert_id
    (snd (record_school_certificate (Env r WriteOk) now cert_id
            school_name region st))
  = Some {[ "type" := VStr "school"; "school_name" := school_name;
            "region" := region; "date" := VStr now ]}.
Proof. apply lookup_new_school_record. Qed.

(** X10. Looking up an id right after a Student certificate was recorded
    under it returns the School record of that id when the ledger had one:
    School records take precedence, and the Student record is then out of
    reach of the lookup. Otherwise it returns the new record, tagged with
    the type [student]. *)
Theorem lookup_after_student_record r w now cert_id school_name st :
  get_certificate_info (Env true w) cert_id
    (snd (record_student_certificate (Env r WriteOk) now cert_id school_name st))
  = Some match school_certificates (get_all_data (Env r WriteOk) st) !! cert_id with
         | Some c => c ∪ {[ "type" := VStr "school" ]}
         | None => {[ "type" := VStr "student"; "school_name" := school_name;
                      "date" := VStr now ]}
         end.
Proof.
  rewrite record_student_certificate_eq. unfold get_certificate_info, get_all_data.
  simpl. destruct (school_certificates _ !! cert_id); [reflexivity |].
  rewrite lookup_insert_eq. reflexivity.
Qed.

Lemma tagged_record (c : cert) kind :
  "type" ∉ dom c ->
  (c ∪ {[ "type" := VStr kind ]}) !! "type" = Some (VStr kind)
  /\ delete "type" (c ∪ {[ "type" := VStr kind ]}) = c.
Proof.
  intros Hc%not_elem_of_dom. split.
  - rewrite lookup_union_r by exact Hc. apply lookup_singleton_eq.
  - rewrite <- insert_union_singleton_r by exact Hc.
    rewrite delete_insert_eq. by apply delete_id.
Qed.

(** X11. On a ledger built by recording calls, a successful lookup returns
    the stored record with one more field, [type], which says which mapping
    the record came from; an id in both mappings is answered from the
    School mapping. *)
Theorem lookup_tags_the_mapping calls e cert_id c :
  get_certificate_info e cert_id (run calls None) = Some c ->
  let d := get_all_data e (run calls None) in
  (school_certificates d !! cert_id = Some (delete "type" c)
   /\ c !! "type" = Some (VStr "school"))
  \/ (school_certificates d !! cert_id = None
      /\ student_certificates d !! cert_id = Some (delete "type" c)
      /\ c !! "type" = Some (VStr "student")).
Proof.
  intros Hget d. unfold get_certificate_info in Hget. fold (get_all_data e (run calls None)) in Hget.
  fold d in Hget.
  assert (only_school_level_data d) as [Hs Ht].
  { apply (invariant_run only_school_level_data).
    - apply only_school_level_data_default.
    - apply only_school_level_data_apply. }
  destruct (school_certificates d !! cert_id) as [c0|] eqn:Hsc.
  - left. injection Hget as <-.
    destruct (tagged_record c0 "school") as [Htag Hdel].
    { rewrite (Hs cert_id c0 Hsc). unfold school_fields. set_solver. }
    by rewrite Hdel, Htag.
  - right. destruct (student_certificates d !! cert_id) as [c0|] eqn:Hst;
      [| discriminate].
    injection Hget as <-.
    destruct (tagged_record c0 "student") as [Htag Hdel].
    { rewrite (Ht cert_id c0 Hst). unfold student_fields. set_solver. }
    by rewrite Hdel, Htag.
Qed.


Lemma lookup_tags_the_mapping_witness :
  let e := Env true WriteOk in
  let calls := [ (e, "2024-05-01T10:00:00", RecordStudent "ABC123" (VStr "Oak School"));
                 (e, "2024-05-02T10:00:00",
                  RecordSchool "ABC123" (VStr "Oak School") (VStr "Wales")) ] in
  get_certificate_info e "ABC123" (run calls None)
  = Some {[ "type" := VStr "school"; "school_name" := VStr "Oak School";
            "region" := VStr "Wales"; "date" := VStr "2024-05-02T10:00:00" ]}
  /\ school_certificates (get_all_data e (run calls None)) !! "ABC123"
     = Some {[ "school_name" := VStr "Oak School"; "region" := VStr "Wales";
               "date" := VStr "2024-05-02T10:00:00" ]}.
Proof.
  intros e calls.
  assert (get_certificate_info e "ABC123" (run calls None)
          = Some {[ "type" := VStr "school"; "school_name" := VStr "Oak School";
                    "region" := VStr "Wales";
                    "date" := VStr "2024-05-02T10:00:00" ]}) as Hget
    by reflexivity.
  split; [exact Hget |].
  destruct (lookup_tags_the_mapping calls e "ABC123" _ Hget)
    as [[Hs _] | [Hs _]]; [exact Hs | discriminate Hs].
Defined.

(** X12. When reading and writing work throughout, the record found under
    an id after a sequence of recording calls is the one written by the
    last call of that kind for that id, and an id no call used is absent:
    nothing is lost and the last write wins. *)
Theorem last_write_wins calls w cert_id :
  Forall good_io calls ->
  let d := get_all_data (Env true w) (run calls None) in
  school_certificates d !! cert_id = last_school cert_id calls
  /\ student_certificates d !! cert_id = last_student cert_id calls.
Proof.
  intros Hgood d. unfold d, get_all_data.
  rewrite (run_good calls None w Hgood), load_absent.
  rewrite replay_school, replay_student. simpl.
  split; [by destruct (last_school cert_id calls)
         | by destruct (last_student cert_id calls)].
Qed.

Lemma last_write_wins_witness :
  let e := Env true WriteOk in
  let calls := [ (e, "2024-05-01T10:00:00",
                  RecordSchool "ABC123" (VStr "Oak School") (VStr "Wales"));
                 (e, "2024-05-02T10:00:00",
                  RecordSchool "DEF456" (VStr "Elm School") (VStr "England"));
                 (e, "2024-05-03T10:00:00",
                  RecordSchool "ABC123" (VStr "Oak Academy") (VStr "Scotland")) ] in
  Forall good_io calls
  /\ school_certificates (get_all_data e (run calls None)) !! "ABC123"
     = Some (school_record "2024-05-03T10:00:00" (VStr "Oak Academy")
                           (VStr "Scotland")).
Proof.
  intros e calls.
  assert (Forall good_io calls) as Hgood by (repeat constructor).
  split; [exact Hgood |].
  exact (proj1 (last_write_wins calls WriteOk "ABC123" Hgood)).
Defined.

(** X13. When reading and writing work throughout, the two totals reported
    after a sequence of recording calls are the numbers of distinct ids the
    School calls and the Student calls were made with. *)
Theorem totals_are_distinct_ids calls w :
  Forall good_io calls ->
  totals (get_stats (Env true w) (run calls None))
  = Stats (Z.of_nat (size (list_to_set (school_ids calls) : gset string)))
          (Z.of_nat (size (list_to_set (student_ids calls) : gset string))).
Proof.
  intros Hgood.
  destruct (invariant_run totals_agree totals_agree_default totals_agree_apply
              calls (Env true w)) as [Hs Ht].
  unfold get_stats. simpl.
  destruct (stats (_load_data (Env true w) (run calls None))) as [ts tt] eqn:Hst.
  simpl in Hs, Ht. subst ts tt. unfold len.
  rewrite <- !size_dom, (run_good calls None w Hgood), load_absent.
  rewrite replay_school_dom, replay_student_dom. simpl.
  by rewrite !dom_empty_L, !(right_id_L ∅ (∪)).
Qed.

Lemma totals_are_distinct_ids_witness :
  let e := Env true WriteOk in
  let calls := [ (e, "2024-05-01T10:00:00",
                  RecordSchool "ABC123" (VStr "Oak School") (VStr "Wales"));
                 (e, "2024-05-02T10:00:00", RecordStudent "S1" (VStr "Oak School"));
                 (e, "2024-05-03T10:00:00",
                  RecordSchool "ABC123" (VStr "Oak Academy") (VStr "Wales")) ] in
  Forall good_io calls
  /\ totals (get_stats e (run calls None)) = Stats 1 1.
Proof.
  intros e calls.
  assert (Forall good_io calls) as Hgood by (repeat constructor).
  split; [exact Hgood |].
  etransitivity; [exact (totals_are_distinct_ids calls WriteOk Hgood) |].
  reflexivity.
Defined.

(** X14. A recording call that reads the file successfully never removes or
    changes a record stored under another id, in either mapping, unless
    [json.dump] fails after the file was truncated. *)
Theorem other_records_are_kept w w' now op cert_id st :
  w <> DumpFails ->
  cert_id <> call_id op ->
  let st' := snd (step st (Env true w, now, op)) in
  school_certificates (get_all_data (Env true w') st') !! cert_id
  = school_certificates (get_all_data (Env true w') st) !! cert_id
  /\ student_certificates (get_all_data (Env true w') st') !! cert_id
     = student_certificates (get_all_data (Env true w') st) !! cert_id.
Proof.
  intros Hw Hid st'. unfold st', get_all_data. rewrite step_eq.
  unfold _save_data. destruct w; simpl; [| done | done].
  rewrite (load_readable w' st), (load_readable WriteOk st).
  destruct op as [id n r|id n]; simpl in *;
    split; try reflexivity; by apply lookup_insert_ne.
Qed.

Lemma other_records_are_kept_witness :
  OpenFails <> DumpFails
  /\ "ABC123" <> call_id (RecordSchool "DEF456" (VStr "Elm School") (VStr "England"))
  /\ school_certificates
       (get_all_data (Env true WriteOk)
          (snd (step one_school_ledger
                  (Env true OpenFails, "2024-06-01T09:00:00",
                   RecordSchool "DEF456" (VStr "Elm School") (VStr "England")))))
       !! "ABC123"
     = school_certificates (get_all_data (Env true WriteOk) one_school_ledger)
       !! "ABC123".
Proof.
  assert (OpenFails <> DumpFails) as H1 by discriminate.
  assert ("ABC123" <> call_id (RecordSchool "DEF456" (VStr "Elm School")
                                            (VStr "England"))) as H2
    by discriminate.
  split; [exact H1 |]. split; [exact H2 |].
  exact (proj1 (other_records_are_kept OpenFails WriteOk "2024-06-01T09:00:00"
                  (RecordSchool "DEF456" (VStr "Elm School") (VStr "England"))
                  "ABC123" one_school_ledger H1 H2)).
Defined.

(** X15. [regions] and [region_percentages] always have exactly the four
    fixed regions as keys, and for each of them [regions] reports the count
    that [countries] reports, or 0 when [countries] has no such key. *)
Theorem regions_agree_with_countries e st r :
  r ∈ fixed_regions ->
  let s := get_stats e st in
  regions s !! r = Some (default 0 (countries s !! r))
  /\ dom (regions s) = fixed_regions
  /\ dom (region_percentages s) = fixed_regions.
Proof.
  intros Hr s. unfold s, get_stats. simpl.
  destruct (fixed_region_names r Hr) as [Hne Hunk].
  assert (dom region_counts0 = fixed_regions) as Hdom.
  { unfold region_counts0, fixed_regions.
    rewrite !dom_insert_L, dom_singleton_L. set_solver. }
  split; [| split].
  - rewrite (region_counts_spec _ r Hr), country_counts_spec.
    rewrite default_entry by apply occurrences_nonneg.
    by rewrite (country_region_occurrences r _ Hne Hunk).
  - by rewrite region_counts_dom.
  - destruct (0 <? _); by rewrite dom_fmap_L, region_counts_dom.
Qed.

Lemma regions_agree_with_countries_witness :
  "Wales" ∈ fixed_regions
  /\ regions (get_stats (Env true WriteOk) one_school_ledger) !! "Wales" = Some 1.
Proof.
  assert ("Wales" ∈ fixed_regions) as H by (unfold fixed_regions; set_solver).
  split; [exact H |].
  etransitivity;
    [exact (proj1 (regions_agree_with_countries (Env true WriteOk)
                     one_school_ledger "Wales" H)) |].
  reflexivity.
Defined.

(** X16. The counts in [countries] add up to the number of School records
    that have a non-empty region string or no [region] field; on a ledger
    built by recording calls this is at most the reported total of School
    certificates. *)
Theorem countries_add_up calls e st :
  sum_counts (countries (get_stats e st))
  = len (counted (school_certificates (get_all_data e st)))
  /\ sum_counts (countries (get_stats e (run calls None)))
     <= total_school_certificates (totals (get_stats e (run calls None))).
Proof.
  split; [apply country_counts_sum |].
  destruct (invariant_run totals_agree totals_agree_default totals_agree_apply
              calls e) as [Hs _].
  unfold get_stats. simpl. rewrite Hs, country_counts_sum. apply counted_le.
Qed.


Import App AppSpec AppFacts.
Local Open Scope string_scope.

(** X17. [register] goes on to the certificate page exactly when the three
    fields are non-blank, neither the teacher's name nor the school's name
    contains a blocked word, the PDF is produced and the ledger is written.
    The region is not run through the filter. *)
Theorem register_accepts_iff order w form session st :
  order ≡ₚ BLOCKED_WORDS ->
  redirect (register order w form session st) = "school_certificate"
  <-> (field form "teacher_name" <> ""
       /\ field form "school_name" <> ""
       /\ field form "region" <> ""
       /\ substring_check (Some (field form "teacher_name")) = false
       /\ substring_check (Some (field form "school_name")) = false
       /\ (exists pdf_path, pdf w = PdfOk pdf_path)
       /\ write (io w) = WriteOk).
Proof.
  intros Hperm. unfold register. fold (field form "teacher_name").
  fold (field form "school_name"). fold (field form "region").
  destruct (String.eqb_spec (field form "teacher_name") "") as [Ht|Ht];
    [simpl; split; [discriminate | tauto] |].
  destruct (String.eqb_spec (field form "school_name") "") as [Hs|Hs];
    [simpl; split; [discriminate | tauto] |].
  destruct (String.eqb_spec (field form "region") "") as [Hr|Hr];
    [simpl; split; [discriminate | tauto] |].
  simpl orb. cbv iota.
  rewrite check_all_fields_ok.
  change (forallb (clean order) _)
    with (clean order ("teacher_name", Some (field form "teacher_name"))
          && (clean order ("school_name", Some (field form "school_name"))
              && true)).
  rewrite !(clean_substring order _ _ Hperm), andb_true_r.
  destruct (substring_check (Some (field form "teacher_name")));
    [simpl; split; [discriminate | intros (_ & _ & _ & ? & _); discriminate] |].
  destruct (substring_check (Some (field form "school_name")));
    [simpl; split; [discriminate | intros (_ & _ & _ & _ & ? & _); discriminate] |].
  simpl negb. simpl andb. cbv iota.
  destruct (pdf w) as [p|msg];
    [| simpl; split; [discriminate | intros (_ & _ & _ & _ & _ & [? ?] & _); discriminate]].
  pose proof (record_school_ok (io w) (now w) (cert_id w)
                (VStr (field form "school_name")) (VStr (field form "region")) st)
    as Hok.
  destruct (record_school_certificate _ _ _ _ _ _) as [[[]|ex] st'];
    simpl in *.
  - split; [intros _ | reflexivity].
    repeat split; try done; [by exists p | by apply Hok].
  - split; [discriminate |]. intros (_ & _ & _ & _ & _ & _ & Hw).
    apply Hok in Hw. discriminate.
Qed.

Lemma register_accepts_iff_witness :
  let w := World "9F3A0C2B" "May 01, 2024" "2024-05-01T10:00:00"
                 (PdfOk "certificates/school_certificate_9F3A0C2B.pdf")
                 (Env true WriteOk) "" in
  let form : gmap string string :=
    {[ "teacher_name" := " Ms Byron "; "school_name" := "Oak School";
       "region" := "Shitland" ]} in
  fst (contains_profanity BLOCKED_WORDS (Some "Shitland")) = true
  /\ redirect (register BLOCKED_WORDS w form ∅ None) = "school_certificate".
Proof.
  intros w form. split; [reflexivity |].
  apply (register_accepts_iff BLOCKED_WORDS w form ∅ None (reflexivity _)).
  repeat split; try (vm_compute; congruence).
  by exists "certificates/school_certificate_9F3A0C2B.pdf".
Defined.

(** X18. When [register] goes on to the certificate page, looking up the new
    id finds a School record made of the school's name and the region, both
    without surrounding whitespace, and the time of the call: the teacher's
    name is not in the ledger. *)
Theorem register_then_lookup order w w' form session st :
  redirect (register order w form session st) = "school_certificate" ->
  get_certificate_info (Env true w') (cert_id w)
    (storage_after (register order w form session st))
  = Some {[ "type" := VStr "school";
            "school_name" := VStr (field form "school_name");
            "region" := VStr (field form "region");
            "date" := VStr (now w) ]}.
Proof.
  unfold register. fold (field form "teacher_name").
  fold (field form "school_name"). fold (field form "region").
  destruct (_ || _ || _); [discriminate |].
  destruct (check_all_fields order _) as [[[|] ?] ?]; [| discriminate].
  destruct (pdf w) as [p|msg]; [| discriminate].
  pose proof (record_school_ok (io w) (now w) (cert_id w)
                (VStr (field form "school_name")) (VStr (field form "region")) st)
    as Hok.
  destruct (record_school_certificate (io w) _ _ _ _ _) as [[[]|ex] st'] eqn:Hrec;
    simpl; [intros _ | discriminate].
  assert (write (io w) = WriteOk) as Hw by (apply Hok; reflexivity).
  destruct (io w) as [rd wr]. simpl in Hw. subst wr.
  rewrite <- (lookup_new_school_record rd w' (now w) (cert_id w)
                (VStr (field form "school_name")) (VStr (field form "region")) st).
  by rewrite Hrec.
Qed.


Lemma register_then_lookup_witness :
  let w := World "9F3A0C2B" "May 01, 2024" "2024-05-01T10:00:00"
                 (PdfOk "certificates/school_certificate_9F3A0C2B.pdf")
                 (Env true WriteOk) "" in
  let form : gmap string string :=
    {[ "teacher_name" := "Ms Byron"; "school_name" := "  Oak School ";
       "region" := "Wales" ]} in
  redirect (register BLOCKED_WORDS w form ∅ None) = "school_certificate"
  /\ get_certificate_info (Env true WriteOk) "9F3A0C2B"
       (storage_after (register BLOCKED_WORDS w form ∅ None))
     = Some {[ "type" := VStr "school"; "school_name" := VStr "Oak School";
               "region" := VStr "Wales"; "date" := VStr "2024-05-01T10:00:00" ]}.
Proof.
  intros w form.
  assert (redirect (register BLOCKED_WORDS w form ∅ None) = "school_certificate")
    as H by (vm_compute; reflexivity).
  split; [exact H |].
  exact (register_then_lookup BLOCKED_WORDS w WriteOk form ∅ None H).
Defined.

(** X19. A request that is answered with a flashed error leaves the ledger
    file as it was, unless [json.dump] failed after the file was
    truncated: blank or rejected input, a failed PDF and a failed [open]
    all leave no trace in the ledger. *)
Theorem refused_request_leaves_ledger order st r :
  flashed (serve order st r) <> [] ->
  write (io r.1) <> DumpFails ->
  storage_after (serve order st r) = st.
Proof.
  destruct r as [w [form session|form session]]; unfold serve; simpl.
  - unfold register.
    destruct (_ || _ || _); [done |].
    destruct (check_all_fields order _) as [[[|] ?] ?]; [| done].
    destruct (pdf w); [| done].
    rewrite record_school_certificate_eq. unfold _save_data.
    destruct (write (io w)); simpl; done.
  - unfold generate_student_cert.
    destruct (session !! "school_name") as [school_name|]; [| done].
    destruct (String.eqb _ _); [done |].
    destruct (check_all_fields order _) as [[[|] ?] ?]; [| done].
    destruct (pdf w); [| done].
    rewrite record_student_certificate_eq. unfold _save_data.
    destruct (write (io w)); simpl; done.
Qed.

Lemma refused_request_leaves_ledger_witness :
  let w := World "9F3A0C2B" "May 01, 2024" "2024-06-01T09:00:00"
                 (PdfOk "certificates/student_certificate_Fucker_9F3A0C2B.pdf")
                 (Env true WriteOk) "" in
  let r := (w, PostStudent {[ "student_name" := "Fucker" ]}
                           {[ "school_name" := "Oak School" ]}) in
  flashed (serve BLOCKED_WORDS one_school_ledger r)
  = [(get_polite_rejection_message, "error")]
  /\ storage_after (serve BLOCKED_WORDS one_school_ledger r) = one_school_ledger.
Proof.
  intros w r. split; [vm_compute; reflexivity |].
  apply (refused_request_leaves_ledger BLOCKED_WORDS one_school_ledger r).
  - vm_compute. discriminate.
  - discriminate.
Defined.

(** X20. When [generate_student_cert] accepts a request and the ledger is
    written, the ledger is the document it read plus one Student record
    made of the school name of the session and the time of the call:
    nothing of the posted form, the student's name included, is stored. *)
Theorem student_name_is_not_stored order w form session st school_name :
  session !! "school_name" = Some school_name ->
  redirect (generate_student_cert order w form session st)
  = "student_certificate_ready" ->
  storage_after (generate_student_cert order w form session st)
  = Some (Json (add_student (now w) (cert_id w) (VStr school_name)
                            (_load_data (io w) st))).
Proof.
  intros Hsession. unfold generate_student_cert. rewrite Hsession.
  destruct (String.eqb _ _); [discriminate |].
  destruct (check_all_fields order _) as [[[|] ?] ?]; [| discriminate].
  destruct (pdf w); [| discriminate].
  rewrite record_student_certificate_eq. unfold _save_data.
  destruct (write (io w)); simpl; [reflexivity | discriminate | discriminate].
Qed.

Lemma student_name_is_not_stored_witness :
  let w := World "7C1D9E44" "May 01, 2024" "2024-06-01T09:00:00"
                 (PdfOk "certificates/student_certificate_Ada_7C1D9E44.pdf")
                 (Env true WriteOk) "" in
  let form : gmap string string := {[ "student_name" := "Ada" ]} in
  let session : gmap string string := {[ "school_name" := "Oak School" ]} in
  session !! "school_name" = Some "Oak School"
  /\ redirect (generate_student_cert BLOCKED_WORDS w form session one_school_ledger)
     = "student_certificate_ready"
  /\ get_certificate_info (Env true WriteOk) "7C1D9E44"
       (storage_after (generate_student_cert BLOCKED_WORDS w form session
                         one_school_ledger))
     = Some {[ "type" := VStr "student"; "school_name" := VStr "Oak School";
               "date" := VStr "2024-06-01T09:00:00" ]}.
Proof.
  intros w form session.
  assert (session !! "school_name" = Some "Oak School") as H1 by reflexivity.
  assert (redirect (generate_student_cert BLOCKED_WORDS w form session
                      one_school_ledger) = "student_certificate_ready") as H2
    by (vm_compute; reflexivity).
  split; [exact H1 |]. split; [exact H2 |].
  rewrite (student_name_is_not_stored BLOCKED_WORDS w form session
             one_school_ledger "Oak School" H1 H2).
  vm_compute. reflexivity.
Defined.

(** X21. On a ledger written only through the two routes, whatever was
    posted and whatever the I/O conditions were, every School certificate
    is counted under its region: the counts in [countries] add up to the
    reported total of School certificates. *)
Theorem countries_add_up_to_total order requests e :
  let s := get_stats e (serve_all order requests None) in
  sum_counts (countries s) = total_school_certificates (totals s).
Proof.
  intros s. unfold s.
  assert (app_ledger (_load_data e (serve_all order requests None)))
    as [[Hagree _] Hcounted].
  { assert (holds app_ledger (serve_all order requests None)) as H
      by (apply app_ledger_serve_all; exact I).
    destruct (load_cases e (serve_all order requests None))
      as [->|(d & Hd & ->)]; [apply app_ledger_default |].
    by rewrite Hd in H. }
  unfold get_stats. simpl.
  by rewrite country_counts_sum, Hagree, (counted_all _ Hcounted).
Qed.


Lemma percentage_zero total : (0 < total)%Z -> percentage total 0 = S754_zero false.
Proof. intros H. destruct total; try lia. reflexivity. Qed.

(** X22. A fixed region with no School certificate reports zero percent on
    both branches of [get_stats]: the int 0 when the total is not
    positive, the float 0.0 when it is. *)
Theorem empty_region_reports_zero e st r :
  regions (get_stats e st) !! r = Some 0%Z ->
  region_percentages (get_stats e st) !! r
  = Some (if (0 <? total_school_certificates (totals (get_stats e st)))%Z
          then Float (S754_zero false) else Int 0).
Proof.
  unfold get_stats. simpl. intros Hr.
  destruct (Z.ltb_spec 0 (total_school_certificates
                            (stats (_load_data e st)))) as [Hpos|Hle];
    rewrite lookup_fmap, Hr; simpl; [| reflexivity].
  by rewrite (percentage_zero _ Hpos).
Qed.

Lemma empty_region_reports_zero_witness :
  regions (get_stats (Env true WriteOk) one_school_ledger) !! "Scotland"
  = Some 0%Z
  /\ region_percentages (get_stats (Env true WriteOk) one_school_ledger)
       !! "Scotland" = Some (Float (S754_zero false)).
Proof.
  assert (regions (get_stats (Env true WriteOk) one_school_ledger) !! "Scotland"
          = Some 0%Z) as H2 by reflexivity.
  split; [exact H2 |].
  exact (empty_region_reports_zero (Env true WriteOk) one_school_ledger
           "Scotland" H2).
Defined.


Import Pdf PdfSpec PdfFacts.
Local Open Scope Z_scope.

(** X23. [hex_to_rgb] reads back a colour written as six hex digits: the
    three bytes, each divided by 255. The case of each digit, the number of
    hash signs in front and whatever follows the sixth digit make no
    difference. *)
Theorem hex_to_rgb_reads_bytes k u1 u2 u3 u4 u5 u6 r g b rest :
  0 <= r <= 255 -> 0 <= g <= 255 -> 0 <= b <= 255 ->
  hex_to_rgb (hashes k +:+ hex_byte u1 u2 r +:+ hex_byte u3 u4 g
              +:+ hex_byte u5 u6 b +:+ rest)
  = Some (over_255 r, over_255 g, over_255 b).
Proof.
  intros Hr Hg Hb. unfold hex_to_rgb. rewrite lstrip_hash_hashes.
  pose proof (int16_hex_byte u1 u2 r Hr) as H1.
  pose proof (int16_hex_byte u3 u4 g Hg) as H2.
  pose proof (int16_hex_byte u5 u6 b Hb) as H3.
  unfold hex_byte in *.
  assert (Ascii.eqb (hex_char u1 (r / 16)) "#" = false) as Hhash.
  { apply hex_char_not_hash.
    pose proof (Z.div_pos r 16). pose proof (Z.div_lt_upper_bound r 16 16). lia. }
  simpl String.append. simpl lstrip_hash. rewrite Hhash.
  simpl substring.
  assert (substring 0 0 rest = EmptyString) as -> by by destruct rest.
  by rewrite H1, H2, H3.
Qed.

Lemma hex_to_rgb_reads_bytes_witness :
  hashes 1 +:+ hex_byte true true 60 +:+ hex_byte true true 133
  +:+ hex_byte true true 23 +:+ "" = "#3C8517"
  /\ hex_to_rgb "#3C8517" = Some (over_255 60, over_255 133, over_255 23).
Proof.
  split; [reflexivity |].
  apply (hex_to_rgb_reads_bytes 1 true true true true true true 60 133 23 "");
    lia.
Defined.

(** X24. A byte divided by 255 lies between 0.0 and 1.0, and is 0.0 only for
    the byte 0 and 1.0 only for the byte 255. *)
Theorem channel_in_unit_interval n :
  0 <= n <= 255 ->
  SFleb float_zero (over_255 n) = true
  /\ SFleb (over_255 n) float_one = true
  /\ SFeqb (over_255 n) float_zero = (n =? 0)
  /\ SFeqb (over_255 n) float_one = (n =? 255).
Proof.
  intros Hn. pose proof over_255_bounds_all as H.
  rewrite forallb_forall in H.
  assert (In n (seqZ 0 256)) as Hin
    by (apply list_elem_of_In, elem_of_seqZ; lia).
  specialize (H n Hin).
  apply andb_prop in H as [H H4]. apply andb_prop in H as [H H3].
  apply andb_prop in H as [H1 H2].
  apply Bool.eqb_prop in H3, H4. done.
Qed.

Lemma channel_in_unit_interval_witness :
  0 <= 133 <= 255
  /\ SFleb (over_255 133) float_one = true.
Proof.
  split; [lia |].
  exact (proj1 (proj2 (channel_in_unit_interval 133 ltac:(lia)))).
Defined.

(** X25. A colour with fewer than five characters after the hash signs is
    refused with [ValueError]: the three-digit shorthand is not read. *)
Theorem short_colour_is_refused hex_color :
  (String.length (lstrip_hash hex_color) < 5)%nat ->
  hex_to_rgb hex_color = None.
Proof.
  intros Hlen. unfold hex_to_rgb.
  rewrite (substring_short (lstrip_hash hex_color)) by lia.
  destruct (int16 (substring 0 2 _)); [| reflexivity].
  by destruct (int16 (substring 2 2 _)).
Qed.

Lemma short_colour_is_refused_witness :
  (String.length (lstrip_hash "#FFF") < 5)%nat /\ hex_to_rgb "#FFF" = None.
Proof.
  assert (String.length (lstrip_hash "#FFF") < 5)%nat as H by (simpl; lia).
  split; [exact H |]. exact (short_colour_is_refused "#FFF" H).
Defined.

(** X26. Whatever colour [hex_to_rgb] accepts, each component it returns is
    an integer between -15 and 255 divided by 255: a component is never
    above 1.0, and it is negative only when the two characters read carry a
    minus sign. *)
Theorem hex_to_rgb_components hex_color r g b :
  hex_to_rgb hex_color = Some (r, g, b) ->
  exists nr ng nb,
    -15 <= nr <= 255 /\ -15 <= ng <= 255 /\ -15 <= nb <= 255
    /\ r = over_255 nr /\ g = over_255 ng /\ b = over_255 nb.
Proof.
  unfold hex_to_rgb.
  destruct (int16 (substring 0 2 _)) as [nr|] eqn:Hr; [| discriminate].
  destruct (int16 (substring 2 2 _)) as [ng|] eqn:Hg; [| discriminate].
  destruct (int16 (substring 4 2 _)) as [nb|] eqn:Hb; [| discriminate].
  intros [= <- <- <-]. exists nr, ng, nb.
  apply int16_short in Hr, Hg, Hb; try apply length_substring.
  repeat split; try reflexivity; lia.
Qed.

Lemma hex_to_rgb_components_witness :
  hex_to_rgb "-f 3+A" = Some (over_255 (-15), over_255 3, over_255 10)
  /\ exists nr ng nb,
       -15 <= nr <= 255 /\ -15 <= ng <= 255 /\ -15 <= nb <= 255
       /\ over_255 (-15) = over_255 nr /\ over_255 3 = over_255 ng
       /\ over_255 10 = over_255 nb.
Proof.
  assert (hex_to_rgb "-f 3+A" = Some (over_255 (-15), over_255 3, over_255 10))
    as H by reflexivity.
  split; [exact H |].
  exact (hex_to_rgb_components "-f 3+A" _ _ _ H).
Defined.
